(** * instructure-ui: Table.Row theme generator, NumberInput prop contract,
      Tabs.Panel rendering

    A shallow embedding of
    - [packages/ui-table/src/Table/Row/theme.ts] ([generateComponentTheme]),
    - [packages/ui-number-input/src/NumberInput/props.ts] ([propTypes],
      [allowedProps]),
    - the rendering contract exercised by
      [packages/ui-tabs/src/Tabs/Panel/__tests__/Panel.test.tsx].

    JavaScript values are modelled with an explicit object heap, so that
    object identity, allocation and (the absence of) mutation are visible.
    Objects are finite maps from property names to values. *)

From stdpp Require Import base option list gmap strings pretty.
From Stdlib Require Import ZArith.

Local Set Warnings "-register-all".

(** ** JavaScript values and the object heap *)

(** A value is a primitive or a reference to a heap object.  [VNum n] stands
    for an integral Number whose decimal expansion is what [Number::toString]
    prints (magnitude below 10^21). *)
Inductive Val : Type :=
  | VUndefined
  | VNull
  | VBool (b : bool)
  | VNum (n : Z)
  | VStr (s : string)
  | VRef (l : nat).

Global Instance Val_eq_dec : EqDecision Val.
Proof. solve_decision. Defined.

Global Instance Val_inhabited : Inhabited Val := populate VUndefined.

(** The own enumerable data properties of a plain object. *)
Abbreviation Obj := (gmap string Val).

(** The heap: object number [l] lives at index [l].  Objects are only ever
    appended, which is all the code under study does (object literals). *)
Abbreviation Heap := (list Obj).

Inductive Error : Type := TypeError.

Inductive Completion (A : Type) : Type :=
  | Normal (a : A)
  | Throw (e : Error).
Arguments Normal {A} a.
Arguments Throw {A} e.

(** Computations read and extend the heap and may throw; the heap is kept
    on both outcomes. *)
Definition M (A : Type) : Type := Heap → Completion A * Heap.

Global Instance M_ret : MRet M := λ A a h, (Normal a, h).
Global Instance M_bind : MBind M := λ A B f m h,
  match m h with
  | (Normal a, h') => f a h'
  | (Throw e, h') => (Throw e, h')
  end.

Definition getHeap : M Heap := λ h, (Normal h, h).

(** [new o]: evaluation of an object literal whose properties are [o]. *)
Definition new (o : Obj) : M nat := λ h, (Normal (List.length h), h ++ [o]).

(** The object designated by a reference.  References always designate an
    allocated object; beyond the heap the model reads an object without
    properties. *)
Definition heapObj (h : Heap) (l : nat) : Obj := default ∅ (h !! l).

Definition nullish (v : Val) : bool :=
  match v with VUndefined | VNull => true | _ => false end.

(** [ownProp h v k] is the value of [v.k] for a [v] that is neither
    [undefined] nor [null]: the own property [k] of an object, [undefined]
    when there is none.  Members inherited from the built-in prototypes are
    not theme data; they are only reachable through a computed key and are
    handled by [lookupMember] below. *)
Definition ownProp (h : Heap) (v : Val) (k : string) : Val :=
  match v with
  | VRef l => default VUndefined (heapObj h l !! k)
  | _ => VUndefined
  end.

(** [v.k] and the pattern [const { k } = v]: a TypeError on undefined/null. *)
Definition Get (v : Val) (k : string) : M Val := λ h,
  if nullish v then (Throw TypeError, h) else (Normal (ownProp h v k), h).

(** [v?.k] *)
Definition optGet (v : Val) (k : string) : M Val :=
  if nullish v then mret VUndefined else Get v k.

(** [v?.k1?.k2] *)
Definition optGet2 (v : Val) (k1 k2 : string) : M Val :=
  x ← optGet v k1; optGet x k2.

(** The value read by an optional chain, as a function of the heap. *)
Definition optProp (h : Heap) (v : Val) (k : string) : Val :=
  if nullish v then VUndefined else ownProp h v k.

(** [token h theme [k1; ..; kn]] is [theme?.k1?. .. ?.kn]. *)
Definition token (h : Heap) (theme : Val) (path : list string) : Val :=
  foldl (optProp h) theme path.

(** Well-formed heaps: every stored reference designates an allocated
    object. *)
Definition wfVal (h : Heap) (v : Val) : Prop :=
  match v with VRef l => l < List.length h | _ => True end.

Global Instance wfVal_dec h v : Decision (wfVal h v).
Proof. destruct v; simpl; apply _. Defined.

Definition wfHeap (h : Heap) : Prop :=
  Forall (map_Forall (λ _ v, wfVal h v)) h.

Definition isObject (v : Val) : bool :=
  match v with VRef _ => true | _ => false end.

(** [theme] is an object of the well-formed heap [h]. *)
Definition themeObject (h : Heap) (theme : Val) : Prop :=
  wfHeap h ∧ wfVal h theme ∧ isObject theme = true.

Global Instance wfHeap_dec h : Decision (wfHeap h).
Proof. unfold wfHeap. apply _. Defined.

Global Instance themeObject_dec h theme : Decision (themeObject h theme).
Proof. unfold themeObject. apply _. Defined.

(** ToString, as applied by a template literal and by a computed property
    key.  For a plain data object, OrdinaryToPrimitive calls the inherited
    [Object.prototype.toString], which yields ["[object Object]"]; an own
    data property named [toString] shadows it with a non-callable value,
    [valueOf] then returns the object itself, and the conversion throws. *)
Definition ToString (h : Heap) (v : Val) : Completion string :=
  match v with
  | VUndefined => Normal "undefined"
  | VNull => Normal "null"
  | VBool true => Normal "true"
  | VBool false => Normal "false"
  | VNum n => Normal (pretty n)
  | VStr s => Normal s
  | VRef l =>
      match heapObj h l !! "toString" with
      | None => Normal "[object Object]"
      | Some _ => Throw TypeError
      end
  end.

Definition toString (v : Val) : M string := λ h, (ToString h v, h).

(** The value found under a computed key: an own property, or a member
    inherited from [Object.prototype] (a built-in function, or the
    prototype object itself for [__proto__]). *)
Inductive Member : Type :=
  | Own (v : Val)
  | Inherited (name : string).

Definition objectPrototypeNames : list string :=
  [ "constructor"; "__defineGetter__"; "__defineSetter__"; "hasOwnProperty";
    "__lookupGetter__"; "__lookupSetter__"; "isPrototypeOf";
    "propertyIsEnumerable"; "toString"; "valueOf"; "__proto__";
    "toLocaleString" ].

(** [o[k]] for the plain object at [l]. *)
Definition lookupMember (l : nat) (k : string) : M Member := λ h,
  match heapObj h l !! k with
  | Some v => (Normal (Own v), h)
  | None =>
      if bool_decide (k ∈ objectPrototypeNames)
      then (Normal (Inherited k), h)
      else (Normal (Own VUndefined), h)
  end.

(** The characters of a string primitive, as the indexed properties of its
    wrapper object. *)
Fixpoint stringChars (i : nat) (s : string) : Obj :=
  match s with
  | EmptyString => ∅
  | String c s' => <[pretty i := VStr (String c EmptyString)]> (stringChars (S i) s')
  end.

(** The properties an object spread [...x] copies: the own enumerable
    properties of [x]; none for undefined, null, booleans and numbers, and
    none for the built-in members, whose own properties are not
    enumerable. *)
Definition ownEnumerable (h : Heap) (x : Member) : Obj :=
  match x with
  | Own (VRef l) => heapObj h l
  | Own (VStr s) => stringChars 0 s
  | Own _ => ∅
  | Inherited _ => ∅
  end.

(** CopyDataProperties: later properties win. *)
Definition spread (target source : Obj) : Obj := source ∪ target.

(** A computation only ever extends the heap: whatever the outcome, the
    objects that existed before are still there, unchanged. *)
Definition grows {A} (m : M A) : Prop :=
  ∀ h, ∃ ext, (m h).2 = h ++ ext.

(** The properties of the value a computation ended with, read in the heap
    it left behind. *)
Definition contents (out : Completion Val * Heap) : Completion Obj :=
  match out with
  | (Normal (VRef l), h') => Normal (heapObj h' l)
  | (Normal _, _) => Normal ∅
  | (Throw e, _) => Throw e
  end.

(** ** packages/ui-table/src/Table/Row/theme.ts *)

Module TableRow.

(** Lines 42-54: the values of the [componentVariables] literal. *)
Definition componentVariables (colors typography spacing : Val) : M Obj :=
  fontSize ← optGet typography "fontSizeMedium";
  fontFamily ← optGet typography "fontFamily";
  fontWeight ← optGet typography "fontWeightNormal";
  color ← optGet2 colors "contrasts" "grey125125";
  background ← optGet2 colors "contrasts" "white1010";
  borderColor ← optGet2 colors "contrasts" "grey1214";
  hoverBorderColor ← optGet2 colors "contrasts" "blue4570";
  xSmall ← optGet spacing "xSmall";
  xSmallText ← toString xSmall;
  mret (<["fontSize" := fontSize]>
       (<["fontFamily" := fontFamily]>
       (<["fontWeight" := fontWeight]>
       (<["color" := color]>
       (<["background" := background]>
       (<["borderColor" := borderColor]>
       (<["hoverBorderColor" := hoverBorderColor]>
       (<["padding" := VStr (xSmallText +:+ " 0")]> ∅)))))))).

Definition generateComponentTheme (theme : Val) : M Val :=
  (* const { colors, typography, spacing, key: themeName } = theme *)
  colors ← Get theme "colors";
  typography ← Get theme "typography";
  spacing ← Get theme "spacing";
  themeName ← Get theme "key";
  (* const themeSpecificStyle = { canvas: { hoverBorderColor: ... } } *)
  brand ← Get theme "ic-brand-primary";
  canvas ← new {[ "hoverBorderColor" := brand ]};
  themeSpecificStyle ← new {[ "canvas" := VRef canvas ]};
  (* const componentVariables = { ... } *)
  vars ← componentVariables colors typography spacing;
  componentVariables ← new vars;
  (* return { ...componentVariables, ...themeSpecificStyle[themeName] } *)
  h ← getHeap;
  let base := spread ∅ (ownEnumerable h (Own (VRef componentVariables))) in
  key ← toString themeName;
  override ← lookupMember themeSpecificStyle key;
  h' ← getHeap;
  result ← new (spread base (ownEnumerable h' override));
  mret (VRef result).

(** The base variables as a function of the heap the theme lives in:
    each key with the token it is read from, [xSmallText] being the text
    of [theme.spacing?.xSmall]. *)
Definition baseVariables (h : Heap) (theme : Val) (xSmallText : string) : Obj :=
  <["fontSize" := token h theme ["typography"; "fontSizeMedium"]]>
  (<["fontFamily" := token h theme ["typography"; "fontFamily"]]>
  (<["fontWeight" := token h theme ["typography"; "fontWeightNormal"]]>
  (<["color" := token h theme ["colors"; "contrasts"; "grey125125"]]>
  (<["background" := token h theme ["colors"; "contrasts"; "white1010"]]>
  (<["borderColor" := token h theme ["colors"; "contrasts"; "grey1214"]]>
  (<["hoverBorderColor" := token h theme ["colors"; "contrasts"; "blue4570"]]>
  (<["padding" := VStr (xSmallText +:+ " 0")]> ∅))))))).

(** The registered theme-name-keyed overrides: one, for [canvas]. *)
Definition themeOverride (h : Heap) (theme : Val) (themeName : string) : Obj :=
  if decide (themeName = "canvas")
  then {[ "hoverBorderColor" := token h theme ["ic-brand-primary"] ]}
  else ∅.

(** The contract in the spec's words: the base variables merged with the
    overrides registered for the theme's name, overrides winning. *)
Definition merged (h : Heap) (theme : Val) (xSmallText themeName : string) : Obj :=
  themeOverride h theme themeName ∪ baseVariables h theme xSmallText.

(** The component theme a call returns, if it returns. *)
Definition componentTheme (theme : Val) (h : Heap) : Completion Obj :=
  contents (generateComponentTheme theme h).

(** The tokens the base variables are read from, [spacing.xSmall] apart. *)
Definition tokenPaths : list (list string) :=
  [ ["typography"; "fontSizeMedium"]; ["typography"; "fontFamily"];
    ["typography"; "fontWeightNormal"];
    ["colors"; "contrasts"; "grey125125"]; ["colors"; "contrasts"; "white1010"];
    ["colors"; "contrasts"; "grey1214"]; ["colors"; "contrasts"; "blue4570"] ].

(** The theme keys the component's styles refer to ([TableRowTheme]). *)
Definition themeKeys : list string :=
  [ "fontSize"; "fontFamily"; "fontWeight"; "color"; "background";
    "borderColor"; "hoverBorderColor"; "padding" ].

(** A sample theme in the heap: object 0 is the theme, with the given [key]
    and brand colour and the three token groups. *)
Definition sampleTheme (key : Val) (brand : option Val) : Heap :=
  [ (* 0: theme *)
    <["key" := key]>
    (<["colors" := VRef 1]>
    (<["typography" := VRef 3]>
    (<["spacing" := VRef 4]>
     match brand with Some b => {[ "ic-brand-primary" := b ]} | None => ∅ end)));
    (* 1: theme.colors *)
    {[ "contrasts" := VRef 2 ]};
    (* 2: theme.colors.contrasts *)
    <["grey125125" := VStr "#273540"]>
    (<["white1010" := VStr "#FFFFFF"]>
    (<["grey1214" := VStr "#E8EAEC"]>
    {[ "blue4570" := VStr "#2B7ABC" ]}));
    (* 3: theme.typography *)
    <["fontSizeMedium" := VStr "1rem"]>
    (<["fontFamily" := VStr "LatoWeb, sans-serif"]>
    {[ "fontWeightNormal" := VNum 400 ]});
    (* 4: theme.spacing *)
    {[ "xSmall" := VStr "0.5rem" ]} ].

(** A partial theme: only a name, no token groups. *)
Definition bareTheme (key : Val) : Heap := [ {[ "key" := key ]} ].

Definition canvasTheme : Heap :=
  sampleTheme (VStr "canvas") (Some (VStr "#0374B5")).
Definition canvasThemeWithoutBrand : Heap :=
  sampleTheme (VStr "canvas") None.
Definition instructureTheme : Heap :=
  sampleTheme (VStr "instructure") (Some (VStr "#0374B5")).
Definition bareInstructureTheme : Heap := bareTheme (VStr "instructure").
Definition bareCanvasTheme : Heap := bareTheme (VStr "canvas").

End TableRow.


(** ** packages/ui-number-input/src/NumberInput/props.ts *)

Module NumberInput.

(** The checkers of the contract, as written in the source. *)
Inductive TypeChecker : Type :=
  | PT_string
  | PT_bool
  | PT_number
  | PT_func
  | PT_node
  | PT_oneOf (expectedValues : list Val)
  | PT_oneOfType (checkers : list TypeChecker)
  | PT_arrayOf (checker : TypeChecker)
  | FormPropTypes_message.

(** A contract entry: a checker, and whether [.isRequired] was taken. *)
Record Validator : Type := mkValidator {
  checker : TypeChecker;
  required : bool
}.

Definition optional (c : TypeChecker) : Validator := mkValidator c false.
Definition isRequired (c : TypeChecker) : Validator := mkValidator c true.

Definition oneOf (l : list string) : TypeChecker := PT_oneOf (VStr <$> l).

(** Lines 193-214, in source order. *)
Definition propTypesEntries : list (string * Validator) :=
  [ ("renderLabel", isRequired (PT_oneOfType [PT_node; PT_func]));
    ("id", optional PT_string);
    ("interaction", optional (oneOf ["enabled"; "disabled"; "readonly"]));
    ("messages", optional (PT_arrayOf FormPropTypes_message));
    ("placeholder", optional PT_string);
    ("isRequired", optional PT_bool);
    ("showArrows", optional PT_bool);
    ("size", optional (oneOf ["medium"; "large"]));
    ("value", optional (PT_oneOfType [PT_string; PT_number]));
    ("width", optional PT_string);
    ("display", optional (oneOf ["inline-block"; "block"]));
    ("inputRef", optional PT_func);
    ("onFocus", optional PT_func);
    ("onBlur", optional PT_func);
    ("onChange", optional PT_func);
    ("onDecrement", optional PT_func);
    ("onIncrement", optional PT_func);
    ("onKeyDown", optional PT_func);
    ("inputMode", optional (oneOf ["numeric"; "decimal"; "tel"]));
    ("textAlign", optional (oneOf ["start"; "center"])) ].

Definition propTypes : gmap string Validator := list_to_map propTypesEntries.

(** Lines 216-237. *)
Definition allowedProps : list string :=
  [ "renderLabel"; "id"; "interaction"; "messages"; "placeholder";
    "isRequired"; "showArrows"; "size"; "value"; "width"; "display";
    "inputRef"; "onFocus"; "onBlur"; "onChange"; "onDecrement";
    "onIncrement"; "onKeyDown"; "inputMode"; "textAlign" ].

(** The literal-union members of [NumberInputOwnProps] (lines 86, 101, 153,
    158): the declared literals, and whether the member is optional ([?]). *)
Record LiteralUnion : Type := mkLiteralUnion {
  literals : list string;
  isOptional : bool
}.

Definition NumberInputOwnProps_literals : gmap string LiteralUnion :=
  list_to_map
    [ ("size", mkLiteralUnion ["medium"; "large"] true);
      ("display", mkLiteralUnion ["inline-block"; "block"] true);
      ("inputMode", mkLiteralUnion ["numeric"; "decimal"; "tel"] true);
      ("textAlign", mkLiteralUnion ["start"; "center"] true) ].

(** [Object.is] on the values of the model: primitives by value,
    objects by identity. *)
Definition Object_is (x y : Val) : bool := bool_decide (x = y).

(** Modelled from the spec: the checkers are those of the prop-types
    package, which is not under src/.  Per the spec a contract entry is an
    expected shape (string, function, enum of literals, object) plus a
    required/optional flag, and validation reports a missing required
    property or a wrong type.  Hence: a missing value (undefined or null)
    is accepted exactly by an optional entry, and a value that is present
    is accepted by an enum when it is one of the expected literals.  The
    verdict of the checkers that inspect functions, arrays or React nodes
    is outside the value model ([None]). *)
Definition validate (v : Validator) (propValue : Val) : option bool :=
  if nullish propValue then Some (negb (required v))
  else
    match checker v with
    | PT_oneOf expectedValues =>
        Some (existsb (Object_is propValue) expectedValues)
    | PT_string => Some (match propValue with VStr _ => true | _ => false end)
    | PT_bool => Some (match propValue with VBool _ => true | _ => false end)
    | PT_number => Some (match propValue with VNum _ => true | _ => false end)
    | _ => None
    end.

(** The verdict on the prop named [name]. *)
Definition accepts (name : string) (propValue : Val) : Prop :=
  ∃ v, propTypes !! name = Some v ∧ validate v propValue = Some true.

End NumberInput.

(** ** packages/ui-tabs/src/Tabs/Panel *)

Module TabsPanel.

(** Rendered markup. *)
Inductive Node : Type :=
  | Text (s : string)
  | Element (tag : string) (attrs : gmap string string) (children : list Node).

Fixpoint textContent (n : Node) : string :=
  match n with
  | Text s => s
  | Element _ _ children =>
      (fix go (l : list Node) : string :=
         match l with
         | [] => EmptyString
         | c :: l' => textContent c +:+ go l'
         end) children
  end.

Definition textOf (l : list Node) : string :=
  foldr (λ c acc, textContent c +:+ acc) EmptyString l.

Definition getAttribute (name : string) (n : Node) : option string :=
  match n with
  | Text _ => None
  | Element _ attrs _ => attrs !! name
  end.

(** [find('[role="r"]')]: the first element in document order whose
    [role] attribute is [r]. *)
Fixpoint find (r : string) (n : Node) : option Node :=
  match n with
  | Text _ => None
  | Element _ attrs children =>
      if bool_decide (attrs !! "role" = Some r) then Some n
      else
        (fix go (l : list Node) : option Node :=
           match l with
           | [] => None
           | c :: l' =>
               match find r c with
               | Some e => Some e
               | None => go l'
               end
           end) children
  end.

Record PanelProps : Type := mkPanelProps {
  isSelected : bool;
  renderTitle : string;
  children : list Node
}.

(** Modelled from the spec: the [Panel] component is not under src/ (only
    its test is).  Per the spec its contract is to render the children
    inside a container carrying an accessibility role attribute when
    selected.  The spec fixes neither the container's element type and
    other attributes nor what an unselected panel renders; these are the
    parameters [tag], [otherAttrs] and [unselected]. *)
Definition Panel (tag : string) (otherAttrs : gmap string string)
    (unselected : PanelProps → Node) (props : PanelProps) : Node :=
  if isSelected props
  then Element tag (<["role" := "tabpanel"]> otherAttrs) (children props)
  else unselected props.

(** The panel mounted by both tests of Panel.test.tsx. *)
Definition testProps : PanelProps :=
  mkPanelProps true "Panel Title" [Text "Panel contents"].

Definition mountedTestPanel : Node :=
  Panel "div" ∅ (λ _, Text "") testProps.

End TabsPanel.

(** ** Further sample heaps *)

(** A theme whose [spacing.xSmall] is an object carrying its own
    [toString] data property. *)
Definition shadowedTextTheme : Heap :=
  [ <["key" := VStr "canvas"]> {[ "spacing" := VRef 1 ]};
    {[ "xSmall" := VRef 2 ]};
    {[ "toString" := VNum 1 ]} ].




(** * Properties *)

(** ** Reading the heap *)

Section HeapReads.
Context (h ext : Heap).

Lemma heapObj_app_l l : l < List.length h → heapObj (h ++ ext) l = heapObj h l.
Proof. intros Hl. unfold heapObj. by rewrite lookup_app_l. Qed.

Lemma heapObj_app_r i : heapObj (h ++ ext) (List.length h + i) = default ∅ (ext !! i).
Proof.
  unfold heapObj. rewrite lookup_app_r by lia.
  by replace (List.length h + i - List.length h) with i by lia.
Qed.

Lemma wfVal_app v : wfVal h v → wfVal (h ++ ext) v.
Proof. destruct v; simpl; try done. rewrite length_app. lia. Qed.

Lemma ownProp_app v k : wfVal h v → ownProp (h ++ ext) v k = ownProp h v k.
Proof. destruct v; simpl; try done. intros Hl. by rewrite heapObj_app_l. Qed.

Lemma optProp_app v k : wfVal h v → optProp (h ++ ext) v k = optProp h v k.
Proof. intros Hv. unfold optProp. by rewrite ownProp_app. Qed.

Lemma ToString_app v : wfVal h v → ToString (h ++ ext) v = ToString h v.
Proof. destruct v; simpl; try done. intros Hl. by rewrite heapObj_app_l. Qed.

Lemma wfVal_ownProp v k : wfHeap h → wfVal h (ownProp h v k).
Proof.
  intros Hwf. destruct v as [| | | | |l]; simpl; try done.
  unfold heapObj. destruct (h !! l) as [o|] eqn:Ho; simpl.
  - destruct (o !! k) as [w|] eqn:Hk; simpl; [|done].
    unfold wfHeap in Hwf. rewrite Forall_lookup in Hwf.
    exact (Hwf l o Ho k w Hk).
  - by rewrite lookup_empty.
Qed.

Lemma wfVal_optProp v k : wfHeap h → wfVal h (optProp h v k).
Proof.
  intros Hwf. unfold optProp. destruct (nullish v); [done|].
  by apply wfVal_ownProp.
Qed.

Lemma wfVal_token v path : wfHeap h → wfVal h v → wfVal h (token h v path).
Proof.
  intros Hwf. unfold token. revert v.
  induction path as [|k path IH]; intros v Hv; simpl; [done|].
  apply IH. by apply wfVal_optProp.
Qed.

Lemma token_app v path :
  wfHeap h → wfVal h v → token (h ++ ext) v path = token h v path.
Proof.
  intros Hwf. unfold token. revert v.
  induction path as [|k path IH]; intros v Hv; simpl; [done|].
  rewrite optProp_app by done. apply IH. by apply wfVal_optProp.
Qed.
End HeapReads.

(** ** Running computations *)

Section Running.
Context {A B : Type}.

Lemma bind_normal (m : M A) (f : A → M B) h a h' :
  m h = (Normal a, h') → (m ≫= f) h = f a h'.
Proof. intros Hm. unfold mbind, M_bind. by rewrite Hm. Qed.

Lemma bind_throw (m : M A) (f : A → M B) h e h' :
  m h = (Throw e, h') → (m ≫= f) h = (Throw e, h').
Proof. intros Hm. unfold mbind, M_bind. by rewrite Hm. Qed.
End Running.

Lemma optGet_run v k h : optGet v k h = (Normal (optProp h v k), h).
Proof. unfold optGet, optProp, Get. by destruct (nullish v). Qed.

Lemma optGet2_run v k1 k2 h :
  optGet2 v k1 k2 h = (Normal (optProp h (optProp h v k1) k2), h).
Proof.
  unfold optGet2. rewrite (bind_normal _ _ _ _ _ (optGet_run v k1 h)).
  apply optGet_run.
Qed.

Lemma Get_object l k h : Get (VRef l) k h = (Normal (optProp h (VRef l) k), h).
Proof. done. Qed.

(** ** Computations only extend the heap *)

Create HintDb grows.

Lemma grows_ret {A} (a : A) : grows (mret a).
Proof. intros h. exists []. by rewrite app_nil_r. Qed.

Lemma grows_bind {A B} (m : M A) (f : A → M B) :
  grows m → (∀ a, grows (f a)) → grows (m ≫= f).
Proof.
  intros Hm Hf h. unfold mbind, M_bind.
  destruct (Hm h) as [e1 He1].
  destruct (m h) as [[a|e] h1]; simpl in He1; subst h1.
  - destruct (Hf a (h ++ e1)) as [e2 He2].
    exists (e1 ++ e2). by rewrite He2, app_assoc.
  - by exists e1.
Qed.

Lemma grows_Get v k : grows (Get v k).
Proof. intros h. exists []. unfold Get. destruct (nullish v); by rewrite app_nil_r. Qed.

Lemma grows_optGet v k : grows (optGet v k).
Proof. intros h. exists []. by rewrite optGet_run, app_nil_r. Qed.

Lemma grows_optGet2 v k1 k2 : grows (optGet2 v k1 k2).
Proof. intros h. exists []. by rewrite optGet2_run, app_nil_r. Qed.

Lemma grows_toString v : grows (toString v).
Proof. intros h. exists []. unfold toString. by rewrite app_nil_r. Qed.

Lemma grows_getHeap : grows getHeap.
Proof. intros h. exists []. unfold getHeap. by rewrite app_nil_r. Qed.

Lemma grows_new o : grows (new o).
Proof. intros h. by exists [o]. Qed.

Lemma grows_lookupMember l k : grows (lookupMember l k).
Proof.
  intros h. exists []. unfold lookupMember.
  destruct (heapObj h l !! k); [|destruct (bool_decide _)]; by rewrite app_nil_r.
Qed.

#[export] Hint Resolve grows_ret grows_Get grows_optGet grows_optGet2
  grows_toString grows_getHeap grows_new grows_lookupMember : grows.

Lemma grows_unchanged {A} (m : M A) h l :
  grows m → l < List.length h → (m h).2 !! l = h !! l.
Proof. intros Hm Hl. destruct (Hm h) as [ext ->]. by apply lookup_app_l. Qed.

(** Appending an object whose values are well formed keeps the heap well
    formed. *)
Lemma wfHeap_snoc h o :
  wfHeap h → map_Forall (λ _ v, wfVal h v) o → wfHeap (h ++ [o]).
Proof.
  unfold wfHeap. intros Hh Ho. apply Forall_app. split.
  - eapply Forall_impl; [exact Hh|]. intros o' Ho'.
    eapply map_Forall_impl; [exact Ho'|]. intros k v. apply wfVal_app.
  - constructor; [|constructor].
    eapply map_Forall_impl; [exact Ho|]. intros k v. apply wfVal_app.
Qed.

Lemma ToString_primitive h v : isObject v = false → ∃ s, ToString h v = Normal s.
Proof. destruct v as [| |[]| | |]; simpl; try discriminate; eauto. Qed.

(** Membership in a literal list. *)
Ltac in_list :=
  repeat first [ apply list_elem_of_here | apply list_elem_of_further ].

(** Deciding a closed proposition by evaluation. *)
Ltac by_evaluation := apply (bool_decide_unpack _); vm_compute; exact I.

Module TableRowFacts.
Import TableRow.

(** The literal [componentVariables] on any heap: it throws exactly when
    the text of [spacing?.xSmall] cannot be computed. *)
Lemma componentVariables_run colors typography spacing h :
  componentVariables colors typography spacing h =
    match ToString h (optProp h spacing "xSmall") with
    | Normal xSmallText =>
        (Normal
           (<["fontSize" := optProp h typography "fontSizeMedium"]>
           (<["fontFamily" := optProp h typography "fontFamily"]>
           (<["fontWeight" := optProp h typography "fontWeightNormal"]>
           (<["color" := optProp h (optProp h colors "contrasts") "grey125125"]>
           (<["background" := optProp h (optProp h colors "contrasts") "white1010"]>
           (<["borderColor" := optProp h (optProp h colors "contrasts") "grey1214"]>
           (<["hoverBorderColor" := optProp h (optProp h colors "contrasts") "blue4570"]>
           (<["padding" := VStr (xSmallText +:+ " 0")]> ∅)))))))), h)
    | Throw e => (Throw e, h)
    end.
Proof.
  unfold componentVariables.
  do 3 (erewrite bind_normal; [|apply optGet_run]).
  do 4 (erewrite bind_normal; [|apply optGet2_run]).
  erewrite bind_normal; [|apply optGet_run].
  unfold mbind, M_bind, toString.
  by destruct (ToString h (optProp h spacing "xSmall")).
Qed.

Lemma themeObject_inv h theme :
  themeObject h theme → wfHeap h ∧ ∃ l, theme = VRef l ∧ l < List.length h.
Proof.
  intros (Hwf & Hv & Hobj). split; [done|].
  destruct theme; try discriminate. eauto.
Qed.

(** The literal evaluated on the tokens of a theme of [h], at any later
    heap. *)
Lemma componentVariables_theme h ext theme xSmallText :
  themeObject h theme →
  ToString h (token h theme ["spacing"; "xSmall"]) = Normal xSmallText →
  componentVariables (token h theme ["colors"]) (token h theme ["typography"])
      (token h theme ["spacing"]) (h ++ ext)
    = (Normal (baseVariables h theme xSmallText), h ++ ext).
Proof.
  intros (Hwf & Hv & _) Htxt. rewrite componentVariables_run.
  assert (∀ p, wfVal h (token h theme p)) as Htok
    by (intros p; by apply wfVal_token).
  pose proof (Htok ["colors"]) as Hc.
  pose proof (Htok ["typography"]) as Ht.
  pose proof (Htok ["spacing"]) as Hs.
  pose proof (Htok ["colors"; "contrasts"]) as Hcc.
  pose proof (Htok ["spacing"; "xSmall"]) as Hx.
  unfold token in *; simpl in Hc, Ht, Hs, Hcc, Hx, Htxt |- *.
  rewrite (optProp_app h ext _ "contrasts" Hc).
  rewrite !(optProp_app h ext) by assumption.
  rewrite ToString_app by done. by rewrite Htxt.
Qed.

Lemma componentVariables_theme_throw h ext theme e :
  themeObject h theme →
  ToString h (token h theme ["spacing"; "xSmall"]) = Throw e →
  componentVariables (token h theme ["colors"]) (token h theme ["typography"])
      (token h theme ["spacing"]) (h ++ ext)
    = (Throw e, h ++ ext).
Proof.
  intros (Hwf & Hv & _) Htxt. rewrite componentVariables_run.
  assert (∀ p, wfVal h (token h theme p)) as Htok
    by (intros p; by apply wfVal_token).
  pose proof (Htok ["spacing"]) as Hs.
  pose proof (Htok ["spacing"; "xSmall"]) as Hx.
  unfold token in *; simpl in Hs, Hx, Htxt |- *.
  rewrite (optProp_app h ext _ "xSmall" Hs).
  rewrite ToString_app by done. by rewrite Htxt.
Qed.

(** The override found under the computed key: the [canvas] entry, and
    nothing to copy for any other name, inherited or not. *)
Lemma lookupMember_themeSpecificStyle H canvas tss brand key :
  heapObj H tss = {[ "canvas" := VRef canvas ]} →
  heapObj H canvas = {[ "hoverBorderColor" := brand ]} →
  ∃ member, lookupMember tss key H = (Normal member, H) ∧
    ownEnumerable H member =
      if decide (key = "canvas") then {[ "hoverBorderColor" := brand ]} else ∅.
Proof.
  intros Htss Hcanvas. unfold lookupMember. rewrite Htss.
  destruct (decide (key = "canvas")) as [->|Hne].
  - rewrite lookup_singleton_eq. eexists; split; [done|]. by simpl.
  - rewrite lookup_singleton_ne by done.
    destruct (bool_decide (key ∈ objectPrototypeNames)); eexists; by split.
Qed.

(** Symbolic execution of the whole function on a theme object: four
    objects are allocated, the last one is returned and holds [merged]. *)
Lemma generateComponentTheme_run h theme xSmallText themeName :
  themeObject h theme →
  ToString h (token h theme ["spacing"; "xSmall"]) = Normal xSmallText →
  ToString h (token h theme ["key"]) = Normal themeName →
  generateComponentTheme theme h =
    (Normal (VRef (List.length h + 3)),
     h ++ [ {[ "hoverBorderColor" := token h theme ["ic-brand-primary"] ]};
            {[ "canvas" := VRef (List.length h) ]};
            baseVariables h theme xSmallText;
            merged h theme xSmallText themeName ]).
Proof.
  intros Hth Htxt Hkey.
  destruct (themeObject_inv _ _ Hth) as (Hwf & l & -> & Hl).
  unfold generateComponentTheme.
  do 5 (erewrite bind_normal; [|apply Get_object]).
  do 2 (erewrite bind_normal; [|reflexivity]).
  rewrite <- app_assoc. cbn [app].
  erewrite bind_normal; [|by apply (componentVariables_theme h _ (VRef l))].
  erewrite bind_normal; [|reflexivity].
  erewrite bind_normal; [|reflexivity].
  rewrite <- app_assoc. cbn [app].
  erewrite bind_normal; cycle 1.
  { unfold toString. rewrite ToString_app.
    - change (optProp h (VRef l) "key") with (token h (VRef l) ["key"]).
      by rewrite Hkey.
    - by apply (wfVal_token h (VRef l) ["key"]). }
  rewrite !length_app. cbn [List.length].
  destruct (lookupMember_themeSpecificStyle
              (h ++ [ {[ "hoverBorderColor" := token h (VRef l) ["ic-brand-primary"] ]};
                      {[ "canvas" := VRef (List.length h) ]};
                      baseVariables h (VRef l) xSmallText ])
              (List.length h) (List.length h + 1)
              (token h (VRef l) ["ic-brand-primary"]) themeName)
    as (member & Hm & Hcopy).
  { by rewrite heapObj_app_r. }
  { replace (List.length h) with (List.length h + 0) at 2 by lia.
    by rewrite heapObj_app_r. }
  erewrite bind_normal; [|exact Hm].
  erewrite bind_normal; [|reflexivity].
  erewrite bind_normal; [|reflexivity].
  unfold mret, M_ret.
  change (optProp h (VRef l) "ic-brand-primary")
    with (token h (VRef l) ["ic-brand-primary"]).
  rewrite Hcopy. cbn [ownEnumerable].
  rewrite heapObj_app_r. cbn [lookup list_lookup default].
  rewrite <- app_assoc. cbn [app]. rewrite length_app. cbn [List.length].
  unfold spread, merged, themeOverride.
  by rewrite (right_id_L ∅ (∪)).
Qed.

(** [merged] is the base either as it is or with one key replaced. *)
Lemma merged_canvas h theme xSmallText :
  merged h theme xSmallText "canvas" =
    <["hoverBorderColor" := token h theme ["ic-brand-primary"]]>
      (baseVariables h theme xSmallText).
Proof. unfold merged, themeOverride. by rewrite insert_union_singleton_l. Qed.

Lemma merged_other h theme xSmallText themeName :
  themeName ≠ "canvas" →
  merged h theme xSmallText themeName = baseVariables h theme xSmallText.
Proof.
  intros Hne. unfold merged, themeOverride.
  rewrite decide_False by done. by rewrite (left_id_L ∅ (∪)).
Qed.

Lemma componentTheme_run h theme xSmallText themeName :
  themeObject h theme →
  ToString h (token h theme ["spacing"; "xSmall"]) = Normal xSmallText →
  ToString h (token h theme ["key"]) = Normal themeName →
  componentTheme theme h = Normal (merged h theme xSmallText themeName).
Proof.
  intros Hth Htxt Hkey. unfold componentTheme.
  rewrite (generateComponentTheme_run _ _ _ _ Hth Htxt Hkey). cbn [contents].
  by rewrite heapObj_app_r.
Qed.

(** The three ways in which a call throws. *)
Lemma generateComponentTheme_nullish theme h :
  nullish theme = true → generateComponentTheme theme h = (Throw TypeError, h).
Proof. by destruct theme. Qed.

Lemma generateComponentTheme_throw_padding h theme e :
  themeObject h theme →
  ToString h (token h theme ["spacing"; "xSmall"]) = Throw e →
  generateComponentTheme theme h =
    (Throw e,
     h ++ [ {[ "hoverBorderColor" := token h theme ["ic-brand-primary"] ]};
            {[ "canvas" := VRef (List.length h) ]} ]).
Proof.
  intros Hth Htxt.
  destruct (themeObject_inv _ _ Hth) as (Hwf & l & -> & Hl).
  unfold generateComponentTheme.
  do 5 (erewrite bind_normal; [|apply Get_object]).
  do 2 (erewrite bind_normal; [|reflexivity]).
  rewrite <- app_assoc. cbn [app].
  erewrite bind_throw; [done|].
  by apply (componentVariables_theme_throw h _ (VRef l)).
Qed.

Lemma generateComponentTheme_throw_key h theme xSmallText e :
  themeObject h theme →
  ToString h (token h theme ["spacing"; "xSmall"]) = Normal xSmallText →
  ToString h (token h theme ["key"]) = Throw e →
  generateComponentTheme theme h =
    (Throw e,
     h ++ [ {[ "hoverBorderColor" := token h theme ["ic-brand-primary"] ]};
            {[ "canvas" := VRef (List.length h) ]};
            baseVariables h theme xSmallText ]).
Proof.
  intros Hth Htxt Hkey.
  destruct (themeObject_inv _ _ Hth) as (Hwf & l & -> & Hl).
  unfold generateComponentTheme.
  do 5 (erewrite bind_normal; [|apply Get_object]).
  do 2 (erewrite bind_normal; [|reflexivity]).
  rewrite <- app_assoc. cbn [app].
  erewrite bind_normal; [|by apply (componentVariables_theme h _ (VRef l))].
  erewrite bind_normal; [|reflexivity].
  erewrite bind_normal; [|reflexivity].
  rewrite <- app_assoc. cbn [app].
  erewrite bind_throw; [done|].
  unfold toString. rewrite ToString_app.
  - change (optProp h (VRef l) "key") with (token h (VRef l) ["key"]).
    by rewrite Hkey.
  - by apply (wfVal_token h (VRef l) ["key"]).
Qed.

(** A call on a theme object returns exactly when the theme's name and its
    [spacing.xSmall] token can be converted to text. *)
Lemma componentTheme_inv h theme o :
  themeObject h theme →
  componentTheme theme h = Normal o →
  ∃ xSmallText themeName,
    ToString h (token h theme ["spacing"; "xSmall"]) = Normal xSmallText ∧
    ToString h (token h theme ["key"]) = Normal themeName ∧
    o = merged h theme xSmallText themeName.
Proof.
  intros Hth Ho.
  destruct (ToString h (token h theme ["spacing"; "xSmall"])) as [txt|e] eqn:Htxt.
  - destruct (ToString h (token h theme ["key"])) as [name|e] eqn:Hkey.
    + exists txt, name. repeat split.
      rewrite (componentTheme_run _ _ _ _ Hth Htxt Hkey) in Ho. congruence.
    + pose proof (generateComponentTheme_throw_key _ _ _ _ Hth Htxt Hkey) as Hthrow.
      unfold componentTheme in Ho. by rewrite Hthrow in Ho.
  - pose proof (generateComponentTheme_throw_padding _ _ _ Hth Htxt) as Hthrow.
    unfold componentTheme in Ho. by rewrite Hthrow in Ho.
Qed.

Lemma generateComponentTheme_grows theme : grows (generateComponentTheme theme).
Proof.
  unfold generateComponentTheme, componentVariables.
  repeat (apply grows_bind; [auto with grows|intros]); auto with grows.
Qed.

Lemma wfVal_baseVariables h theme xSmallText :
  themeObject h theme →
  map_Forall (λ _ v, wfVal h v) (baseVariables h theme xSmallText).
Proof.
  intros (Hwf & Hv & _). unfold baseVariables.
  repeat (apply map_Forall_insert_2; [by (apply wfVal_token || done)|]).
  apply map_Forall_empty.
Qed.

Lemma wfVal_merged h theme xSmallText themeName :
  themeObject h theme →
  map_Forall (λ _ v, wfVal h v) (merged h theme xSmallText themeName).
Proof.
  intros Hth. destruct (decide (themeName = "canvas")) as [->|Hne].
  - rewrite merged_canvas. apply map_Forall_insert_2.
    + destruct Hth as (Hwf & Hv & _). by apply wfVal_token.
    + by apply wfVal_baseVariables.
  - rewrite merged_other by done. by apply wfVal_baseVariables.
Qed.

(** Well-formedness is an invariant of the call, whatever its outcome. *)
Lemma generateComponentTheme_wf h theme :
  themeObject h theme → wfHeap (generateComponentTheme theme h).2.
Proof.
  intros Hth. pose proof Hth as (Hwf & Hv & _).
  assert (wfHeap (h ++ [ {[ "hoverBorderColor" := token h theme ["ic-brand-primary"] ]};
                         {[ "canvas" := VRef (List.length h) ]} ])) as H2.
  { change (wfHeap (h ++ [ {[ "hoverBorderColor" := token h theme ["ic-brand-primary"] ]} ]
                      ++ [ {[ "canvas" := VRef (List.length h) ]} ])).
    rewrite app_assoc. apply wfHeap_snoc.
    - apply wfHeap_snoc; [done|]. apply map_Forall_singleton. by apply wfVal_token.
    - apply map_Forall_singleton. simpl. rewrite length_app. simpl. lia. }
  destruct (ToString h (token h theme ["spacing"; "xSmall"])) as [txt|e] eqn:Htxt.
  - assert (wfHeap (h ++ [ {[ "hoverBorderColor" := token h theme ["ic-brand-primary"] ]};
                           {[ "canvas" := VRef (List.length h) ]};
                           baseVariables h theme txt ])) as H3.
    { change (wfHeap (h ++ [ {[ "hoverBorderColor" := token h theme ["ic-brand-primary"] ]};
                             {[ "canvas" := VRef (List.length h) ]} ]
                        ++ [ baseVariables h theme txt ])).
      rewrite app_assoc. apply wfHeap_snoc; [done|].
      eapply map_Forall_impl; [by apply wfVal_baseVariables|].
      intros k v. apply wfVal_app. }
    destruct (ToString h (token h theme ["key"])) as [name|e] eqn:Hkey.
    + rewrite (generateComponentTheme_run _ _ _ _ Hth Htxt Hkey). cbn [snd].
      change (wfHeap (h ++ [ {[ "hoverBorderColor" := token h theme ["ic-brand-primary"] ]};
                             {[ "canvas" := VRef (List.length h) ]};
                             baseVariables h theme txt ]
                        ++ [ merged h theme txt name ])).
      rewrite app_assoc. apply wfHeap_snoc; [done|].
      eapply map_Forall_impl; [by apply wfVal_merged|].
      intros k v. apply wfVal_app.
    + by rewrite (generateComponentTheme_throw_key _ _ _ _ Hth Htxt Hkey).
  - by rewrite (generateComponentTheme_throw_padding _ _ _ Hth Htxt).
Qed.

(** The outcome of a call only depends on the theme, not on what else the
    heap holds. *)
Lemma componentTheme_later h ext theme :
  themeObject h theme → wfHeap (h ++ ext) →
  componentTheme theme (h ++ ext) = componentTheme theme h.
Proof.
  intros Hth Hext. pose proof Hth as (Hwf & Hv & Hobj).
  assert (themeObject (h ++ ext) theme) as Hth'.
  { split; [done|]. split; [by apply wfVal_app|done]. }
  assert (∀ p, token (h ++ ext) theme p = token h theme p) as Htok
    by (intros p; by apply token_app).
  assert (∀ p, ToString (h ++ ext) (token (h ++ ext) theme p)
               = ToString h (token h theme p)) as Hstr.
  { intros p. rewrite Htok. apply ToString_app. by apply wfVal_token. }
  assert (∀ txt name, merged (h ++ ext) theme txt name = merged h theme txt name)
    as Hmerged.
  { intros txt name. unfold merged, themeOverride, baseVariables.
    by rewrite !Htok. }
  destruct (ToString h (token h theme ["spacing"; "xSmall"])) as [txt|e] eqn:Htxt.
  - destruct (ToString h (token h theme ["key"])) as [name|e] eqn:Hkey.
    + rewrite (componentTheme_run h theme txt name) by done.
      rewrite (componentTheme_run (h ++ ext) theme txt name); rewrite ?Hstr; try done.
      by rewrite Hmerged.
    + unfold componentTheme.
      rewrite (generateComponentTheme_throw_key h theme txt e) by done.
      by rewrite (generateComponentTheme_throw_key (h ++ ext) theme txt e)
        by (rewrite ?Hstr; done).
  - unfold componentTheme.
    rewrite (generateComponentTheme_throw_padding h theme e) by done.
    by rewrite (generateComponentTheme_throw_padding (h ++ ext) theme e)
      by (rewrite ?Hstr; done).
Qed.

(** Reading the merged theme key by key. *)
Lemma baseVariables_lookup h theme xSmallText :
  let b := baseVariables h theme xSmallText in
  b !! "fontSize" = Some (token h theme ["typography"; "fontSizeMedium"]) ∧
  b !! "fontFamily" = Some (token h theme ["typography"; "fontFamily"]) ∧
  b !! "fontWeight" = Some (token h theme ["typography"; "fontWeightNormal"]) ∧
  b !! "color" = Some (token h theme ["colors"; "contrasts"; "grey125125"]) ∧
  b !! "background" = Some (token h theme ["colors"; "contrasts"; "white1010"]) ∧
  b !! "borderColor" = Some (token h theme ["colors"; "contrasts"; "grey1214"]) ∧
  b !! "hoverBorderColor" = Some (token h theme ["colors"; "contrasts"; "blue4570"]) ∧
  b !! "padding" = Some (VStr (xSmallText +:+ " 0")).
Proof. unfold baseVariables. repeat split; by simplify_map_eq. Qed.

Lemma baseVariables_keys h theme xSmallText k :
  k ∈ themeKeys ↔ is_Some (baseVariables h theme xSmallText !! k).
Proof.
  unfold baseVariables, themeKeys. rewrite !lookup_insert_is_Some, lookup_empty.
  rewrite !elem_of_cons, elem_of_nil. split.
  - intros H. repeat (destruct H as [->|H]; [naive_solver|]). done.
  - intros H. repeat (destruct H as [->|[_ H]]; [naive_solver|]).
    by destruct H.
Qed.

Lemma merged_lookup_ne h theme xSmallText themeName k :
  k ≠ "hoverBorderColor" →
  merged h theme xSmallText themeName !! k = baseVariables h theme xSmallText !! k.
Proof.
  intros Hk. destruct (decide (themeName = "canvas")) as [->|Hne].
  - rewrite merged_canvas. by rewrite lookup_insert_ne.
  - by rewrite merged_other.
Qed.

Lemma merged_keys h theme xSmallText themeName k :
  k ∈ themeKeys ↔ is_Some (merged h theme xSmallText themeName !! k).
Proof.
  destruct (decide (k = "hoverBorderColor")) as [->|Hk].
  - split; intros _.
    + destruct (decide (themeName = "canvas")) as [->|Hne].
      * rewrite merged_canvas, lookup_insert_eq. eauto.
      * rewrite merged_other by done. apply baseVariables_keys.
        in_list.
    + in_list.
  - rewrite merged_lookup_ne by done. apply baseVariables_keys.
Qed.


(** ** The claims about [generateComponentTheme] *)

(** C1, as amended.  For every theme object with a name and an [xSmall]
    spacing token, the returned component theme has [fontSize] equal to the
    theme's [typography.fontSizeMedium], [fontFamily] equal to its
    [typography.fontFamily], and [padding] equal to the [spacing.xSmall]
    token followed by [" 0"] (the token itself is not the padding). *)
Theorem generateComponentTheme_tokens h theme themeName xSmall :
  themeObject h theme →
  ToString h (token h theme ["key"]) = Normal themeName →
  token h theme ["spacing"; "xSmall"] = VStr xSmall →
  ∃ o, componentTheme theme h = Normal o ∧
    o !! "fontSize" = Some (token h theme ["typography"; "fontSizeMedium"]) ∧
    o !! "fontFamily" = Some (token h theme ["typography"; "fontFamily"]) ∧
    o !! "padding" = Some (VStr (xSmall +:+ " 0")).
Proof.
  intros Hth Hkey Hx.
  assert (ToString h (token h theme ["spacing"; "xSmall"]) = Normal xSmall) as Htxt
    by (by rewrite Hx).
  exists (merged h theme xSmall themeName).
  split; [by apply componentTheme_run|].
  rewrite !merged_lookup_ne by done.
  destruct (baseVariables_lookup h theme xSmall) as (H1 & H2 & _ & _ & _ & _ & _ & H8).
  by rewrite H1, H2, H8.
Qed.

Lemma generateComponentTheme_tokens_witness :
  themeObject canvasTheme (VRef 0) ∧
  ToString canvasTheme (token canvasTheme (VRef 0) ["key"]) = Normal "canvas" ∧
  token canvasTheme (VRef 0) ["spacing"; "xSmall"] = VStr "0.5rem" ∧
  ∃ o, componentTheme (VRef 0) canvasTheme = Normal o ∧
    o !! "fontSize" = Some (VStr "1rem") ∧
    o !! "fontFamily" = Some (VStr "LatoWeb, sans-serif") ∧
    o !! "padding" = Some (VStr "0.5rem 0").
Proof.
  set (h := canvasTheme).
  assert (themeObject h (VRef 0)) as Hth
    by by_evaluation.
  assert (ToString h (token h (VRef 0) ["key"]) = Normal "canvas") as Hkey
    by (vm_compute; reflexivity).
  assert (token h (VRef 0) ["spacing"; "xSmall"] = VStr "0.5rem") as Hx
    by (vm_compute; reflexivity).
  split; [exact Hth|]. split; [exact Hkey|]. split; [exact Hx|].
  exact (generateComponentTheme_tokens h (VRef 0) "canvas" "0.5rem" Hth Hkey Hx).
Defined.

(** C1, as stated, fails: with [spacing.xSmall = "0.5rem"] the padding is
    ["0.5rem 0"], which is not the spacing token. *)
Lemma padding_is_not_the_spacing_token :
  token instructureTheme (VRef 0) ["spacing"; "xSmall"] = VStr "0.5rem" ∧
  ∃ o, componentTheme (VRef 0) instructureTheme = Normal o ∧
    o !! "padding" = Some (VStr "0.5rem 0") ∧
    o !! "padding" ≠ Some (token instructureTheme (VRef 0) ["spacing"; "xSmall"]).
Proof.
  set (h := instructureTheme).
  assert (token h (VRef 0) ["spacing"; "xSmall"] = VStr "0.5rem") as Hx
    by (vm_compute; reflexivity).
  split; [exact Hx|].
  exists (merged h (VRef 0) "0.5rem" "instructure"). split.
  { apply componentTheme_run.
    - by_evaluation.
    - by rewrite Hx.
    - vm_compute; reflexivity. }
  rewrite merged_lookup_ne by done.
  destruct (baseVariables_lookup h (VRef 0) "0.5rem") as (_&_&_&_&_&_&_&Hp).
  rewrite Hp, Hx. split; [done|discriminate].
Qed.

(** C2.  For every theme named [canvas], the returned component theme has
    [hoverBorderColor] equal to the override, the theme's
    ['ic-brand-primary'] value, and not the default
    [colors.contrasts.blue4570] (whenever the two differ). *)
Theorem canvas_hoverBorderColor_is_override h theme xSmallText :
  themeObject h theme →
  token h theme ["key"] = VStr "canvas" →
  ToString h (token h theme ["spacing"; "xSmall"]) = Normal xSmallText →
  ∃ o, componentTheme theme h = Normal o ∧
    o !! "hoverBorderColor" = Some (token h theme ["ic-brand-primary"]) ∧
    (token h theme ["ic-brand-primary"]
       ≠ token h theme ["colors"; "contrasts"; "blue4570"] →
     o !! "hoverBorderColor"
       ≠ Some (token h theme ["colors"; "contrasts"; "blue4570"])).
Proof.
  intros Hth Hname Htxt.
  assert (ToString h (token h theme ["key"]) = Normal "canvas") as Hkey
    by (by rewrite Hname).
  exists (merged h theme xSmallText "canvas").
  split; [by apply componentTheme_run|].
  rewrite merged_canvas, lookup_insert_eq. split; [done|]. congruence.
Qed.

Lemma canvas_hoverBorderColor_is_override_witness :
  themeObject canvasTheme (VRef 0) ∧
  token canvasTheme (VRef 0) ["key"] = VStr "canvas" ∧
  ToString canvasTheme (token canvasTheme (VRef 0) ["spacing"; "xSmall"]) = Normal "0.5rem" ∧
  ∃ o, componentTheme (VRef 0) canvasTheme = Normal o ∧
    o !! "hoverBorderColor" = Some (VStr "#0374B5") ∧
    (VStr "#0374B5" ≠ VStr "#2B7ABC" →
     o !! "hoverBorderColor" ≠ Some (VStr "#2B7ABC")).
Proof.
  set (h := canvasTheme).
  assert (themeObject h (VRef 0)) as Hth
    by by_evaluation.
  assert (token h (VRef 0) ["key"] = VStr "canvas") as Hname
    by (vm_compute; reflexivity).
  assert (ToString h (token h (VRef 0) ["spacing"; "xSmall"]) = Normal "0.5rem")
    as Htxt by (vm_compute; reflexivity).
  split; [exact Hth|]. split; [exact Hname|]. split; [exact Htxt|].
  exact (canvas_hoverBorderColor_is_override h (VRef 0) "0.5rem" Hth Hname Htxt).
Defined.

(** C3.  The returned component theme is the merge of the base variables
    with the overrides keyed by the theme's name; for every theme whose
    name is not [canvas] no override is registered, and the returned theme
    is the base [componentVariables] mapping, field for field. *)
Theorem other_themes_get_the_base h theme xSmallText themeName :
  themeObject h theme →
  ToString h (token h theme ["spacing"; "xSmall"]) = Normal xSmallText →
  ToString h (token h theme ["key"]) = Normal themeName →
  themeName ≠ "canvas" →
  ∃ base,
    componentVariables (token h theme ["colors"]) (token h theme ["typography"])
      (token h theme ["spacing"]) h = (Normal base, h) ∧
    themeOverride h theme themeName = ∅ ∧
    componentTheme theme h = Normal (themeOverride h theme themeName ∪ base) ∧
    componentTheme theme h = Normal base.
Proof.
  intros Hth Htxt Hkey Hne. exists (baseVariables h theme xSmallText).
  split.
  { pose proof (componentVariables_theme h [] theme xSmallText Hth Htxt) as H.
    by rewrite app_nil_r in H. }
  split; [unfold themeOverride; by rewrite decide_False|].
  rewrite (componentTheme_run _ _ _ _ Hth Htxt Hkey).
  split; [done|]. by rewrite merged_other.
Qed.

Lemma other_themes_get_the_base_witness :
  themeObject instructureTheme (VRef 0) ∧
  ToString instructureTheme (token instructureTheme (VRef 0) ["spacing"; "xSmall"]) = Normal "0.5rem" ∧
  ToString instructureTheme (token instructureTheme (VRef 0) ["key"]) = Normal "instructure" ∧
  "instructure" ≠ "canvas" ∧
  ∃ base,
    componentVariables (token instructureTheme (VRef 0) ["colors"]) (token instructureTheme (VRef 0) ["typography"])
      (token instructureTheme (VRef 0) ["spacing"]) instructureTheme = (Normal base, instructureTheme) ∧
    themeOverride instructureTheme (VRef 0) "instructure" = ∅ ∧
    componentTheme (VRef 0) instructureTheme = Normal (themeOverride instructureTheme (VRef 0) "instructure" ∪ base) ∧
    componentTheme (VRef 0) instructureTheme = Normal base.
Proof.
  set (h := instructureTheme).
  assert (themeObject h (VRef 0)) as Hth
    by by_evaluation.
  assert (ToString h (token h (VRef 0) ["spacing"; "xSmall"]) = Normal "0.5rem")
    as Htxt by (vm_compute; reflexivity).
  assert (ToString h (token h (VRef 0) ["key"]) = Normal "instructure") as Hkey
    by (vm_compute; reflexivity).
  assert ("instructure" ≠ "canvas") as Hne by discriminate.
  split; [exact Hth|]. split; [exact Htxt|]. split; [exact Hkey|].
  split; [exact Hne|].
  exact (other_themes_get_the_base h (VRef 0) "0.5rem" "instructure"
           Hth Htxt Hkey Hne).
Defined.

(** C4, as amended.  For every theme accepted by [generateComponentTheme],
    every theme key referenced by the component is a property of the
    returned component theme, and no other key is; its value is defined
    (not [undefined]) whenever the tokens of the theme are defined, the
    ['ic-brand-primary'] value included for the theme named [canvas]. *)
Theorem every_theme_key_is_resolved h theme o :
  themeObject h theme →
  componentTheme theme h = Normal o →
  (∀ k, k ∈ themeKeys ↔ is_Some (o !! k)) ∧
  ((∀ p, p ∈ tokenPaths → token h theme p ≠ VUndefined) →
   (ToString h (token h theme ["key"]) = Normal "canvas" →
    token h theme ["ic-brand-primary"] ≠ VUndefined) →
   ∀ k, k ∈ themeKeys → ∃ v, o !! k = Some v ∧ v ≠ VUndefined).
Proof.
  intros Hth Ho.
  destruct (componentTheme_inv _ _ _ Hth Ho) as (txt & name & Htxt & Hkey & ->).
  split; [intros k; apply merged_keys|].
  intros Htok Hbrand k Hk.
  pose proof (baseVariables_lookup h theme txt) as Hb. cbv zeta in Hb.
  destruct Hb as (H1 & H2 & H3 & H4 & H5 & H6 & H7 & H8).
  assert (∀ p, p ∈ tokenPaths → ∀ k', k' ≠ "hoverBorderColor" →
            baseVariables h theme txt !! k' = Some (token h theme p) →
            ∃ v, merged h theme txt name !! k' = Some v ∧ v ≠ VUndefined) as Hfrom.
  { intros p Hp k' Hk' Hl. exists (token h theme p).
    rewrite merged_lookup_ne by done. split; [done|by apply Htok]. }
  unfold themeKeys in Hk. rewrite !elem_of_cons, elem_of_nil in Hk.
  destruct Hk as [->|[->|[->|[->|[->|[->|[->|[->|[]]]]]]]]].
  - apply (Hfrom ["typography"; "fontSizeMedium"]); [in_list|done|done].
  - apply (Hfrom ["typography"; "fontFamily"]); [in_list|done|done].
  - apply (Hfrom ["typography"; "fontWeightNormal"]); [in_list|done|done].
  - apply (Hfrom ["colors"; "contrasts"; "grey125125"]); [in_list|done|done].
  - apply (Hfrom ["colors"; "contrasts"; "white1010"]); [in_list|done|done].
  - apply (Hfrom ["colors"; "contrasts"; "grey1214"]); [in_list|done|done].
  - destruct (decide (name = "canvas")) as [->|Hne].
    + rewrite merged_canvas, lookup_insert_eq. eexists; split; [done|]. by apply Hbrand.
    + rewrite merged_other by done. eexists; split; [exact H7|].
      apply Htok. in_list.
  - rewrite merged_lookup_ne by done. eexists; split; [exact H8|]. discriminate.
Qed.

Lemma every_theme_key_is_resolved_witness :
  themeObject canvasTheme (VRef 0) ∧
  ∃ o, componentTheme (VRef 0) canvasTheme = Normal o ∧
    (∀ k, k ∈ themeKeys ↔ is_Some (o !! k)) ∧
    ((∀ p, p ∈ tokenPaths → token canvasTheme (VRef 0) p ≠ VUndefined) →
     (ToString canvasTheme (token canvasTheme (VRef 0) ["key"]) = Normal "canvas" →
      token canvasTheme (VRef 0) ["ic-brand-primary"] ≠ VUndefined) →
     ∀ k, k ∈ themeKeys → ∃ v, o !! k = Some v ∧ v ≠ VUndefined).
Proof.
  set (h := canvasTheme).
  assert (themeObject h (VRef 0)) as Hth by by_evaluation.
  assert (componentTheme (VRef 0) h = Normal (merged h (VRef 0) "0.5rem" "canvas"))
    as Ho by (apply componentTheme_run; [exact Hth|vm_compute; reflexivity..]).
  split; [exact Hth|]. eexists. split; [exact Ho|].
  exact (every_theme_key_is_resolved h (VRef 0) _ Hth Ho).
Defined.

(** C4, as stated, fails: a theme without token groups is accepted, and
    the [fontSize] of the returned component theme is [undefined]. *)
Lemma accepted_theme_with_undefined_fontSize :
  themeObject bareInstructureTheme (VRef 0) ∧
  ∃ o, componentTheme (VRef 0) bareInstructureTheme = Normal o ∧ o !! "fontSize" = Some VUndefined.
Proof.
  set (h := bareInstructureTheme).
  assert (themeObject h (VRef 0)) as Hth by by_evaluation.
  split; [exact Hth|].
  exists (merged h (VRef 0) "undefined" "instructure"). split.
  { apply componentTheme_run; [exact Hth|vm_compute; reflexivity..]. }
  rewrite merged_lookup_ne by done.
  destruct (baseVariables_lookup h (VRef 0) "undefined") as (H1 & _).
  rewrite H1. vm_compute. reflexivity.
Qed.

(** C7.  [generateComponentTheme] is deterministic and free of side
    effects on its input: a call on the same theme at any later state of
    the heap, in particular the next call, ends the same way with an equal
    component theme, and every object that existed before the call, the
    theme and its token groups included, is unchanged after it. *)
Theorem generateComponentTheme_deterministic_and_pure h theme :
  themeObject h theme →
  (∀ ext, wfHeap (h ++ ext) →
     componentTheme theme (h ++ ext) = componentTheme theme h) ∧
  componentTheme theme (generateComponentTheme theme h).2 = componentTheme theme h ∧
  (∀ l, l < List.length h → (generateComponentTheme theme h).2 !! l = h !! l).
Proof.
  intros Hth. split; [|split].
  - intros ext Hext. by apply componentTheme_later.
  - pose proof (generateComponentTheme_wf h theme Hth) as Hwf.
    destruct (generateComponentTheme_grows theme h) as [ext Hext].
    rewrite Hext in Hwf |- *. by apply componentTheme_later.
  - intros l Hl. apply grows_unchanged; [apply generateComponentTheme_grows|done].
Qed.

Lemma generateComponentTheme_deterministic_and_pure_witness :
  themeObject canvasTheme (VRef 0) ∧
  (∀ ext, wfHeap (canvasTheme ++ ext) →
     componentTheme (VRef 0) (canvasTheme ++ ext) = componentTheme (VRef 0) canvasTheme) ∧
  componentTheme (VRef 0) (generateComponentTheme (VRef 0) canvasTheme).2
    = componentTheme (VRef 0) canvasTheme ∧
  (∀ l, l < List.length canvasTheme → (generateComponentTheme (VRef 0) canvasTheme).2 !! l = canvasTheme !! l).
Proof.
  set (h := canvasTheme).
  assert (themeObject h (VRef 0)) as Hth by by_evaluation.
  split; [exact Hth|].
  exact (generateComponentTheme_deterministic_and_pure h (VRef 0) Hth).
Defined.

(** C9, as amended.  [generateComponentTheme] is total over partial
    themes: for every theme object whose name and [spacing.xSmall] token,
    where present, are primitive values, the call returns a component theme
    whichever of [typography], [colors], [colors.contrasts] and [spacing]
    are absent.  The fields read from an absent [typography] or [colors]
    are [undefined] ([hoverBorderColor] unless the theme is [canvas]); with
    [spacing] absent, [padding] is the string ["undefined 0"]. *)
Theorem generateComponentTheme_total_on_partial_themes h theme :
  themeObject h theme →
  isObject (token h theme ["key"]) = false →
  isObject (token h theme ["spacing"; "xSmall"]) = false →
  ∃ themeName o,
    ToString h (token h theme ["key"]) = Normal themeName ∧
    componentTheme theme h = Normal o ∧
    (nullish (token h theme ["typography"]) = true →
       o !! "fontSize" = Some VUndefined ∧
       o !! "fontFamily" = Some VUndefined ∧
       o !! "fontWeight" = Some VUndefined) ∧
    (nullish (token h theme ["colors"]) = true
       ∨ nullish (token h theme ["colors"; "contrasts"]) = true →
       o !! "color" = Some VUndefined ∧
       o !! "background" = Some VUndefined ∧
       o !! "borderColor" = Some VUndefined ∧
       (themeName ≠ "canvas" → o !! "hoverBorderColor" = Some VUndefined)) ∧
    (nullish (token h theme ["spacing"]) = true →
       o !! "padding" = Some (VStr "undefined 0")).
Proof.
  intros Hth Hk Hx.
  destruct (ToString_primitive h _ Hk) as [name Hname].
  destruct (ToString_primitive h _ Hx) as [txt Htxt].
  exists name, (merged h theme txt name).
  split; [done|]. split; [by apply componentTheme_run|].
  destruct (baseVariables_lookup h theme txt)
    as (H1 & H2 & H3 & H4 & H5 & H6 & H7 & H8).
  assert (∀ v k, nullish v = true → optProp h v k = VUndefined) as Hnull
    by (intros v k Hv; unfold optProp; by rewrite Hv).
  split; [|split].
  - intros Hty. rewrite !merged_lookup_ne by done. rewrite H1, H2, H3.
    unfold token in Hty |- *. simpl in Hty |- *. by rewrite !(Hnull _ _ Hty).
  - intros Hco.
    assert (nullish (token h theme ["colors"; "contrasts"]) = true) as Hcc.
    { destruct Hco as [Hco|]; [|done].
      unfold token in Hco |- *. simpl in Hco |- *. by rewrite (Hnull _ _ Hco). }
    rewrite !merged_lookup_ne by done. rewrite H4, H5, H6.
    unfold token in Hcc |- *. simpl in Hcc |- *.
    rewrite !(Hnull _ _ Hcc). repeat split.
    intros Hne. rewrite merged_other by done. rewrite H7.
    unfold token. simpl. by rewrite (Hnull _ _ Hcc).
  - intros Hsp. rewrite merged_lookup_ne by done. rewrite H8.
    assert (txt = "undefined") as ->; [|done].
    unfold token in Htxt, Hsp. simpl in Htxt, Hsp.
    rewrite (Hnull _ _ Hsp) in Htxt. simpl in Htxt. congruence.
Qed.

Lemma generateComponentTheme_total_on_partial_themes_witness :
  themeObject bareInstructureTheme (VRef 0) ∧
  isObject (token bareInstructureTheme (VRef 0) ["key"]) = false ∧
  isObject (token bareInstructureTheme (VRef 0) ["spacing"; "xSmall"]) = false ∧
  ∃ themeName o,
    ToString bareInstructureTheme (token bareInstructureTheme (VRef 0) ["key"]) = Normal themeName ∧
    componentTheme (VRef 0) bareInstructureTheme = Normal o ∧
    (nullish (token bareInstructureTheme (VRef 0) ["typography"]) = true →
       o !! "fontSize" = Some VUndefined ∧
       o !! "fontFamily" = Some VUndefined ∧
       o !! "fontWeight" = Some VUndefined) ∧
    (nullish (token bareInstructureTheme (VRef 0) ["colors"]) = true
       ∨ nullish (token bareInstructureTheme (VRef 0) ["colors"; "contrasts"]) = true →
       o !! "color" = Some VUndefined ∧
       o !! "background" = Some VUndefined ∧
       o !! "borderColor" = Some VUndefined ∧
       (themeName ≠ "canvas" → o !! "hoverBorderColor" = Some VUndefined)) ∧
    (nullish (token bareInstructureTheme (VRef 0) ["spacing"]) = true →
       o !! "padding" = Some (VStr "undefined 0")).
Proof.
  set (h := bareInstructureTheme).
  assert (themeObject h (VRef 0)) as Hth by by_evaluation.
  assert (isObject (token h (VRef 0) ["key"]) = false) as Hk
    by (vm_compute; reflexivity).
  assert (isObject (token h (VRef 0) ["spacing"; "xSmall"]) = false) as Hx
    by (vm_compute; reflexivity).
  split; [exact Hth|]. split; [exact Hk|]. split; [exact Hx|].
  exact (generateComponentTheme_total_on_partial_themes h (VRef 0) Hth Hk Hx).
Defined.

(** C9, as stated, fails: with [spacing] absent the [padding] of the
    returned component theme is the string ["undefined 0"], not
    [undefined]. *)
Lemma padding_without_spacing_is_not_undefined :
  nullish (token bareCanvasTheme (VRef 0) ["spacing"]) = true ∧
  ∃ o, componentTheme (VRef 0) bareCanvasTheme = Normal o ∧
    o !! "padding" = Some (VStr "undefined 0") ∧
    o !! "padding" ≠ Some VUndefined.
Proof.
  set (h := bareCanvasTheme). split; [vm_compute; reflexivity|].
  exists (merged h (VRef 0) "undefined" "canvas"). split.
  { apply componentTheme_run; [by_evaluation|vm_compute; reflexivity..]. }
  rewrite merged_lookup_ne by done.
  destruct (baseVariables_lookup h (VRef 0) "undefined") as (_&_&_&_&_&_&_&Hp).
  rewrite Hp. split; [done|discriminate].
Qed.

(** C10.  For a theme named [canvas] whose ['ic-brand-primary'] entry is
    absent, the override is still applied by the spread: the returned
    component theme has [hoverBorderColor] [undefined], not the default
    [colors.contrasts.blue4570], and every other field is that of the base
    [componentVariables]. *)
Theorem canvas_without_brand_has_undefined_hoverBorderColor h theme xSmallText :
  themeObject h theme →
  token h theme ["key"] = VStr "canvas" →
  token h theme ["ic-brand-primary"] = VUndefined →
  ToString h (token h theme ["spacing"; "xSmall"]) = Normal xSmallText →
  ∃ base o,
    componentVariables (token h theme ["colors"]) (token h theme ["typography"])
      (token h theme ["spacing"]) h = (Normal base, h) ∧
    componentTheme theme h = Normal o ∧
    o !! "hoverBorderColor" = Some VUndefined ∧
    base !! "hoverBorderColor" = Some (token h theme ["colors"; "contrasts"; "blue4570"]) ∧
    (∀ k, k ≠ "hoverBorderColor" → o !! k = base !! k).
Proof.
  intros Hth Hname Hbrand Htxt.
  assert (ToString h (token h theme ["key"]) = Normal "canvas") as Hkey
    by (by rewrite Hname).
  exists (baseVariables h theme xSmallText), (merged h theme xSmallText "canvas").
  split.
  { pose proof (componentVariables_theme h [] theme xSmallText Hth Htxt) as H.
    by rewrite app_nil_r in H. }
  split; [by apply componentTheme_run|].
  split; [by rewrite merged_canvas, lookup_insert_eq, Hbrand|].
  split; [apply baseVariables_lookup|].
  intros k Hk. by apply merged_lookup_ne.
Qed.

Lemma canvas_without_brand_has_undefined_hoverBorderColor_witness :
  themeObject canvasThemeWithoutBrand (VRef 0) ∧
  token canvasThemeWithoutBrand (VRef 0) ["key"] = VStr "canvas" ∧
  token canvasThemeWithoutBrand (VRef 0) ["ic-brand-primary"] = VUndefined ∧
  ToString canvasThemeWithoutBrand (token canvasThemeWithoutBrand (VRef 0) ["spacing"; "xSmall"]) = Normal "0.5rem" ∧
  ∃ base o,
    componentVariables (token canvasThemeWithoutBrand (VRef 0) ["colors"]) (token canvasThemeWithoutBrand (VRef 0) ["typography"])
      (token canvasThemeWithoutBrand (VRef 0) ["spacing"]) canvasThemeWithoutBrand = (Normal base, canvasThemeWithoutBrand) ∧
    componentTheme (VRef 0) canvasThemeWithoutBrand = Normal o ∧
    o !! "hoverBorderColor" = Some VUndefined ∧
    base !! "hoverBorderColor" = Some (VStr "#2B7ABC") ∧
    (∀ k, k ≠ "hoverBorderColor" → o !! k = base !! k).
Proof.
  set (h := canvasThemeWithoutBrand).
  assert (themeObject h (VRef 0)) as Hth by by_evaluation.
  assert (token h (VRef 0) ["key"] = VStr "canvas") as Hname
    by (vm_compute; reflexivity).
  assert (token h (VRef 0) ["ic-brand-primary"] = VUndefined) as Hbrand
    by (vm_compute; reflexivity).
  assert (ToString h (token h (VRef 0) ["spacing"; "xSmall"]) = Normal "0.5rem")
    as Htxt by (vm_compute; reflexivity).
  split; [exact Hth|]. split; [exact Hname|]. split; [exact Hbrand|].
  split; [exact Htxt|].
  exact (canvas_without_brand_has_undefined_hoverBorderColor h (VRef 0) "0.5rem"
           Hth Hname Hbrand Htxt).
Defined.

End TableRowFacts.

(** ** The claims about the NumberInput prop contract *)

Module NumberInputFacts.
Import NumberInput.

Lemma propTypes_size :
  propTypes !! "size" = Some (optional (oneOf ["medium"; "large"])).
Proof. vm_compute. reflexivity. Qed.

Lemma propTypes_inputMode :
  propTypes !! "inputMode" = Some (optional (oneOf ["numeric"; "decimal"; "tel"])).
Proof. vm_compute. reflexivity. Qed.

(** An optional enum accepts a missing value and its literals, and nothing
    else. *)
Lemma validate_optional_oneOf l v :
  validate (optional (oneOf l)) v = Some true ↔
  nullish v = true ∨ ∃ s, s ∈ l ∧ v = VStr s.
Proof.
  unfold validate, optional, oneOf. simpl.
  destruct (nullish v) eqn:Hn.
  - split; [by left|done].
  - split.
    + intros Hex. injection Hex as Hex. right. apply existsb_exists in Hex as (x & Hin & Hx).
      unfold Object_is in Hx. apply bool_decide_eq_true in Hx. subst x.
      apply list_elem_of_In, list_elem_of_fmap in Hin as (s & -> & Hs). eauto.
    + intros [|(s & Hs & ->)]; [done|]. f_equal.
      apply existsb_exists. exists (VStr s). split.
      * apply list_elem_of_In, list_elem_of_fmap. eauto.
      * unfold Object_is. by apply bool_decide_eq_true.
Qed.

Lemma accepts_optional_oneOf name l v :
  propTypes !! name = Some (optional (oneOf l)) →
  accepts name v ↔ nullish v = true ∨ ∃ s, s ∈ l ∧ v = VStr s.
Proof.
  intros Hname. rewrite <- validate_optional_oneOf. unfold accepts. split.
  - intros (w & Hw & Hv). congruence.
  - intros Hv. eauto.
Qed.

(** C5, as amended.  The validators of [size] and [inputMode] carry exactly
    the literal sets the interface declares, and both props are optional:
    the [size] validator accepts a value if and only if it is missing
    (undefined or null) or is 'medium' or 'large', and the [inputMode]
    validator if and only if it is missing or is 'numeric', 'decimal' or
    'tel'. *)
Theorem enum_validators_accept_missing_or_declared_literal v :
  (accepts "size" v ↔
     nullish v = true ∨ v = VStr "medium" ∨ v = VStr "large") ∧
  (accepts "inputMode" v ↔
     nullish v = true ∨ v = VStr "numeric" ∨ v = VStr "decimal" ∨ v = VStr "tel") ∧
  (∀ name, name ∈ ["size"; "inputMode"] →
     ∃ u, NumberInputOwnProps_literals !! name = Some u ∧
          propTypes !! name =
            Some (mkValidator (oneOf (literals u)) (negb (isOptional u)))).
Proof.
  split; [|split].
  - rewrite (accepts_optional_oneOf _ _ _ propTypes_size).
    split.
    + intros [|(s & Hs & ->)]; [by left|right].
      rewrite !elem_of_cons, elem_of_nil in Hs.
      destruct Hs as [-> | [-> | [] ] ]; auto.
    + intros [? | [-> | ->] ]; [by left|right; eexists; (split; [|reflexivity]); in_list..].
  - rewrite (accepts_optional_oneOf _ _ _ propTypes_inputMode).
    split.
    + intros [|(s & Hs & ->)]; [by left|right].
      rewrite !elem_of_cons, elem_of_nil in Hs.
      destruct Hs as [-> | [-> | [-> | [] ] ] ]; auto.
    + intros [? | [-> | [-> | ->] ] ]; [by left|right; eexists; (split; [|reflexivity]); in_list..].
  - intros name Hname. rewrite !elem_of_cons, elem_of_nil in Hname.
    destruct Hname as [-> | [-> | [] ] ]; eexists; split;
      solve [vm_compute; reflexivity].
Qed.

(** C5, as stated, fails: the validators also accept a missing value, which
    is none of the literals. *)
Lemma enum_validators_accept_missing_value :
  accepts "size" VNull ∧ accepts "size" VUndefined ∧
  accepts "inputMode" VNull ∧
  ¬ (VNull = VStr "medium" ∨ VNull = VStr "large") ∧
  ¬ (VUndefined = VStr "medium" ∨ VUndefined = VStr "large") ∧
  ¬ (VNull = VStr "numeric" ∨ VNull = VStr "decimal" ∨ VNull = VStr "tel").
Proof.
  repeat split;
    try (eexists; split; [vm_compute; reflexivity|reflexivity]);
    intros H; decompose [or] H; discriminate.
Qed.

(** C6.  Every declared prop key of NumberInput has a validator: the keys
    listed in [allowedProps] are exactly the keys of [propTypes] (and are
    listed once each, in the order of the [propTypes] entries). *)
Theorem allowedProps_are_the_propTypes_keys :
  (∀ k, k ∈ allowedProps ↔ is_Some (propTypes !! k)) ∧
  allowedProps = propTypesEntries.*1 ∧
  NoDup allowedProps.
Proof.
  assert (allowedProps = propTypesEntries.*1) as Hkeys by reflexivity.
  split; [|split; [done|]].
  - intros k. rewrite Hkeys. unfold propTypes.
    rewrite <- elem_of_dom, dom_list_to_map_L, elem_of_list_to_set. done.
  - by_evaluation.
Qed.

End NumberInputFacts.

(** ** The claims about the Tabs.Panel rendering contract *)

Module TabsPanelFacts.
Import TabsPanel.

Lemma textContent_Element tag attrs cs :
  textContent (Element tag attrs cs) = textOf cs.
Proof.
  simpl. induction cs as [|c cs IH]; [done|]. simpl. by rewrite IH.
Qed.

(** C8.  For every panel rendered with [isSelected] and supplied children,
    the rendered container is found under the role 'tabpanel', carries that
    role attribute, and its text content is the children's text. *)
Theorem selected_panel_has_role_and_children_text
    tag otherAttrs unselected (props : PanelProps) :
  isSelected props = true →
  let tabPanel := Panel tag otherAttrs unselected props in
  find "tabpanel" tabPanel = Some tabPanel ∧
  getAttribute "role" tabPanel = Some "tabpanel" ∧
  textContent tabPanel = textOf (children props).
Proof.
  intros Hsel. unfold Panel. rewrite Hsel. cbv zeta. split; [|split].
  - cbn [find]. by rewrite lookup_insert_eq, bool_decide_eq_true_2.
  - cbn [getAttribute]. apply lookup_insert_eq.
  - apply textContent_Element.
Qed.

Lemma selected_panel_has_role_and_children_text_witness :
  isSelected testProps = true ∧
  find "tabpanel" mountedTestPanel = Some mountedTestPanel ∧
  getAttribute "role" mountedTestPanel = Some "tabpanel" ∧
  textContent mountedTestPanel = "Panel contents".
Proof.
  split; [reflexivity|].
  exact (selected_panel_has_role_and_children_text "div" ∅ (λ _, Text "")
           testProps eq_refl).
Defined.

End TabsPanelFacts.

(** * Further properties of the code *)

Module TableRowMore.
Import TableRow TableRowFacts.

Lemma Get_present v k h :
  nullish v = false → Get v k h = (Normal (ownProp h v k), h).
Proof. intros Hv. unfold Get. by rewrite Hv. Qed.

(** A successful call on a theme object, in full: what it returns and the
    heap it leaves. *)
Lemma generateComponentTheme_inv h theme v h' :
  themeObject h theme →
  generateComponentTheme theme h = (Normal v, h') →
  ∃ xSmallText themeName,
    ToString h (token h theme ["spacing"; "xSmall"]) = Normal xSmallText ∧
    ToString h (token h theme ["key"]) = Normal themeName ∧
    v = VRef (List.length h + 3) ∧
    h' = h ++ [ {[ "hoverBorderColor" := token h theme ["ic-brand-primary"] ]};
                {[ "canvas" := VRef (List.length h) ]};
                baseVariables h theme xSmallText;
                merged h theme xSmallText themeName ].
Proof.
  intros Hth Hrun.
  destruct (ToString h (token h theme ["spacing"; "xSmall"])) as [txt|e] eqn:Htxt.
  - destruct (ToString h (token h theme ["key"])) as [name|e] eqn:Hkey.
    + exists txt, name.
      rewrite (generateComponentTheme_run _ _ _ _ Hth Htxt Hkey) in Hrun.
      injection Hrun as <- <-. done.
    + by rewrite (generateComponentTheme_throw_key _ _ _ _ Hth Htxt Hkey) in Hrun.
  - by rewrite (generateComponentTheme_throw_padding _ _ _ Hth Htxt) in Hrun.
Qed.

(** X1.  A missing theme (undefined or null) makes the destructuring of
    line 34 throw a TypeError before anything is allocated; a call on any
    other value gets past it and allocates. *)
Theorem missing_theme_is_a_TypeError theme h :
  nullish theme = true ↔ generateComponentTheme theme h = (Throw TypeError, h).
Proof.
  split; [apply generateComponentTheme_nullish|].
  destruct (nullish theme) eqn:Hn; [done|]. intros Hrun. exfalso.
  unfold generateComponentTheme in Hrun.
  do 5 (erewrite bind_normal in Hrun; [|by apply Get_present]).
  do 2 (erewrite bind_normal in Hrun; [|reflexivity]).
  match type of Hrun with
  | ?m ?hh = _ =>
      assert (grows m) as Hg
        by (unfold componentVariables;
            repeat (apply grows_bind; [auto with grows|intros]);
            auto with grows);
      destruct (Hg hh) as [ext Hext]; rewrite Hrun in Hext
  end.
  simpl in Hext. apply (f_equal List.length) in Hext.
  rewrite !length_app in Hext. simpl in Hext. lia.
Qed.

(** X2.  A call on a theme object returns exactly when both the theme's
    name and its [spacing.xSmall] token can be converted to text, and
    throws otherwise; the token groups being absent is never an error. *)
Theorem returns_iff_name_and_spacing_convert h theme :
  themeObject h theme →
  ((∃ o, componentTheme theme h = Normal o) ↔
     (∃ txt, ToString h (token h theme ["spacing"; "xSmall"]) = Normal txt) ∧
     (∃ name, ToString h (token h theme ["key"]) = Normal name)) ∧
  (componentTheme theme h = Throw TypeError ↔
     ToString h (token h theme ["spacing"; "xSmall"]) = Throw TypeError ∨
     ToString h (token h theme ["key"]) = Throw TypeError).
Proof.
  intros Hth.
  destruct (ToString h (token h theme ["spacing"; "xSmall"])) as [txt|[]] eqn:Htxt.
  - destruct (ToString h (token h theme ["key"])) as [name|[]] eqn:Hkey.
    + rewrite (componentTheme_run _ _ _ _ Hth Htxt Hkey). split.
      * split; eauto.
      * split; [done|]. by intros [|].
    + unfold componentTheme.
      rewrite (generateComponentTheme_throw_key _ _ _ _ Hth Htxt Hkey). simpl.
      split.
      * split; [by intros [? ?]|]. by intros [_ [? ?]].
      * split; auto.
  - unfold componentTheme.
    rewrite (generateComponentTheme_throw_padding _ _ _ Hth Htxt). simpl.
    split.
    + split; [by intros [? ?]|]. by intros [[? ?] _].
    + split; auto.
Qed.

Lemma returns_iff_name_and_spacing_convert_witness :
  themeObject shadowedTextTheme (VRef 0) ∧
  ((∃ o, componentTheme (VRef 0) shadowedTextTheme = Normal o) ↔
     (∃ txt, ToString shadowedTextTheme
               (token shadowedTextTheme (VRef 0) ["spacing"; "xSmall"]) = Normal txt) ∧
     (∃ name, ToString shadowedTextTheme
                (token shadowedTextTheme (VRef 0) ["key"]) = Normal name)) ∧
  (componentTheme (VRef 0) shadowedTextTheme = Throw TypeError ↔
     ToString shadowedTextTheme
       (token shadowedTextTheme (VRef 0) ["spacing"; "xSmall"]) = Throw TypeError ∨
     ToString shadowedTextTheme
       (token shadowedTextTheme (VRef 0) ["key"]) = Throw TypeError).
Proof.
  assert (themeObject shadowedTextTheme (VRef 0)) as Hth by by_evaluation.
  split; [exact Hth|].
  exact (returns_iff_name_and_spacing_convert shadowedTextTheme (VRef 0) Hth).
Defined.

(** X3.  Whatever the theme's name, the returned [fontWeight], [color],
    [background] and [borderColor] are the tokens
    [typography.fontWeightNormal], [colors.contrasts.grey125125],
    [.white1010] and [.grey1214]; and unless the name is [canvas],
    [hoverBorderColor] is the default [colors.contrasts.blue4570]. *)
Theorem remaining_fields_are_tokens h theme themeName o :
  themeObject h theme →
  ToString h (token h theme ["key"]) = Normal themeName →
  componentTheme theme h = Normal o →
  o !! "fontWeight" = Some (token h theme ["typography"; "fontWeightNormal"]) ∧
  o !! "color" = Some (token h theme ["colors"; "contrasts"; "grey125125"]) ∧
  o !! "background" = Some (token h theme ["colors"; "contrasts"; "white1010"]) ∧
  o !! "borderColor" = Some (token h theme ["colors"; "contrasts"; "grey1214"]) ∧
  (themeName ≠ "canvas" →
   o !! "hoverBorderColor" = Some (token h theme ["colors"; "contrasts"; "blue4570"])).
Proof.
  intros Hth Hname Ho.
  destruct (componentTheme_inv _ _ _ Hth Ho) as (txt & name & Htxt & Hkey & ->).
  assert (name = themeName) as -> by congruence.
  destruct (baseVariables_lookup h theme txt) as (_ & _ & H3 & H4 & H5 & H6 & H7 & _).
  rewrite !merged_lookup_ne by done. repeat split; try done.
  intros Hne. by rewrite merged_other.
Qed.

Lemma remaining_fields_are_tokens_witness :
  themeObject instructureTheme (VRef 0) ∧
  ToString instructureTheme (token instructureTheme (VRef 0) ["key"])
    = Normal "instructure" ∧
  componentTheme (VRef 0) instructureTheme
    = Normal (merged instructureTheme (VRef 0) "0.5rem" "instructure") ∧
  merged instructureTheme (VRef 0) "0.5rem" "instructure" !! "fontWeight"
    = Some (VNum 400) ∧
  merged instructureTheme (VRef 0) "0.5rem" "instructure" !! "color"
    = Some (VStr "#273540") ∧
  merged instructureTheme (VRef 0) "0.5rem" "instructure" !! "background"
    = Some (VStr "#FFFFFF") ∧
  merged instructureTheme (VRef 0) "0.5rem" "instructure" !! "borderColor"
    = Some (VStr "#E8EAEC") ∧
  ("instructure" ≠ "canvas" →
   merged instructureTheme (VRef 0) "0.5rem" "instructure" !! "hoverBorderColor"
     = Some (VStr "#2B7ABC")).
Proof.
  set (h := instructureTheme).
  assert (themeObject h (VRef 0)) as Hth by by_evaluation.
  assert (ToString h (token h (VRef 0) ["key"]) = Normal "instructure") as Hkey
    by (vm_compute; reflexivity).
  assert (componentTheme (VRef 0) h = Normal (merged h (VRef 0) "0.5rem" "instructure"))
    as Ho by (apply componentTheme_run; [exact Hth|vm_compute; reflexivity..]).
  split; [exact Hth|]. split; [exact Hkey|]. split; [exact Ho|].
  exact (remaining_fields_are_tokens h (VRef 0) "instructure" _ Hth Hkey Ho).
Defined.

(** X4.  The theme-name override replaces nothing but [hoverBorderColor]:
    whatever the theme's name, every other key of the returned component
    theme reads as in the [componentVariables] literal. *)
Theorem override_only_touches_hoverBorderColor h theme o :
  themeObject h theme →
  componentTheme theme h = Normal o →
  ∃ base,
    componentVariables (token h theme ["colors"]) (token h theme ["typography"])
      (token h theme ["spacing"]) h = (Normal base, h) ∧
    ∀ k, k ≠ "hoverBorderColor" → o !! k = base !! k.
Proof.
  intros Hth Ho.
  destruct (componentTheme_inv _ _ _ Hth Ho) as (txt & name & Htxt & Hkey & ->).
  exists (baseVariables h theme txt). split.
  - pose proof (componentVariables_theme h [] theme txt Hth Htxt) as H.
    by rewrite app_nil_r in H.
  - intros k Hk. by apply merged_lookup_ne.
Qed.

Lemma override_only_touches_hoverBorderColor_witness :
  themeObject canvasTheme (VRef 0) ∧
  componentTheme (VRef 0) canvasTheme
    = Normal (merged canvasTheme (VRef 0) "0.5rem" "canvas") ∧
  ∃ base,
    componentVariables (token canvasTheme (VRef 0) ["colors"])
      (token canvasTheme (VRef 0) ["typography"])
      (token canvasTheme (VRef 0) ["spacing"]) canvasTheme
      = (Normal base, canvasTheme) ∧
    ∀ k, k ≠ "hoverBorderColor" →
      merged canvasTheme (VRef 0) "0.5rem" "canvas" !! k = base !! k.
Proof.
  set (h := canvasTheme).
  assert (themeObject h (VRef 0)) as Hth by by_evaluation.
  assert (componentTheme (VRef 0) h = Normal (merged h (VRef 0) "0.5rem" "canvas"))
    as Ho by (apply componentTheme_run; [exact Hth|vm_compute; reflexivity..]).
  split; [exact Hth|]. split; [exact Ho|].
  exact (override_only_touches_hoverBorderColor h (VRef 0) _ Hth Ho).
Defined.



(** X6.  The returned component theme is a new object: a successful call
    allocates four objects, returns the last of them, and that object is
    neither the theme nor any value reachable from it through a token
    path, so that changing the result later cannot change the theme. *)
Theorem returned_object_is_fresh h theme v h' :
  themeObject h theme →
  generateComponentTheme theme h = (Normal v, h') →
  ∃ l, v = VRef l ∧
    List.length h ≤ l ∧ l < List.length h' ∧
    List.length h' = List.length h + 4 ∧
    ∀ p, token h theme p ≠ v.
Proof.
  intros Hth Hrun.
  destruct (generateComponentTheme_inv _ _ _ _ Hth Hrun)
    as (txt & name & _ & _ & -> & ->).
  exists (List.length h + 3). rewrite length_app. simpl.
  repeat split; try lia.
  intros p Hp. destruct Hth as (Hwf & Hv & _).
  pose proof (wfVal_token h theme p Hwf Hv) as Hw.
  rewrite Hp in Hw. simpl in Hw. lia.
Qed.

Lemma returned_object_is_fresh_witness :
  themeObject canvasTheme (VRef 0) ∧
  generateComponentTheme (VRef 0) canvasTheme
    = (Normal (VRef 8),
       canvasTheme ++
         [ {[ "hoverBorderColor" := token canvasTheme (VRef 0) ["ic-brand-primary"] ]};
           {[ "canvas" := VRef 5 ]};
           baseVariables canvasTheme (VRef 0) "0.5rem";
           merged canvasTheme (VRef 0) "0.5rem" "canvas" ]) ∧
  ∃ l, VRef 8 = VRef l ∧
    List.length canvasTheme ≤ l ∧
    l < List.length
          (canvasTheme ++
             [ {[ "hoverBorderColor" := token canvasTheme (VRef 0) ["ic-brand-primary"] ]};
               {[ "canvas" := VRef 5 ]};
               baseVariables canvasTheme (VRef 0) "0.5rem";
               merged canvasTheme (VRef 0) "0.5rem" "canvas" ]) ∧
    List.length
      (canvasTheme ++
         [ {[ "hoverBorderColor" := token canvasTheme (VRef 0) ["ic-brand-primary"] ]};
           {[ "canvas" := VRef 5 ]};
           baseVariables canvasTheme (VRef 0) "0.5rem";
           merged canvasTheme (VRef 0) "0.5rem" "canvas" ])
      = List.length canvasTheme + 4 ∧
    ∀ p, token canvasTheme (VRef 0) p ≠ VRef 8.
Proof.
  set (h := canvasTheme).
  assert (themeObject h (VRef 0)) as Hth by by_evaluation.
  pose proof (generateComponentTheme_run h (VRef 0) "0.5rem" "canvas" Hth
                ltac:(vm_compute; reflexivity) ltac:(vm_compute; reflexivity)) as Hrun.
  change (List.length h) with 5 in Hrun. cbn [Nat.add] in Hrun.
  split; [exact Hth|]. split; [exact Hrun|].
  exact (returned_object_is_fresh h (VRef 0) _ _ Hth Hrun).
Defined.

(** X7.  Well-formedness of the heap is kept by the call, whether it
    returns or throws: every reference stored in the objects it allocates
    designates an allocated object, the theme is still an object of the
    heap afterwards, and so is the value returned. *)
Theorem call_keeps_the_heap_well_formed h theme :
  themeObject h theme →
  themeObject (generateComponentTheme theme h).2 theme ∧
  ∀ v h', generateComponentTheme theme h = (Normal v, h') → wfVal h' v.
Proof.
  intros Hth. split.
  - split; [by apply generateComponentTheme_wf|].
    destruct Hth as (_ & Hv & Hobj). split; [|done].
    destruct (generateComponentTheme_grows theme h) as [ext ->].
    by apply wfVal_app.
  - intros v h' Hrun.
    destruct (generateComponentTheme_inv _ _ _ _ Hth Hrun)
      as (txt & name & _ & _ & -> & ->).
    simpl. rewrite length_app. simpl. lia.
Qed.

Lemma call_keeps_the_heap_well_formed_witness :
  themeObject shadowedTextTheme (VRef 0) ∧
  themeObject (generateComponentTheme (VRef 0) shadowedTextTheme).2 (VRef 0) ∧
  ∀ v h', generateComponentTheme (VRef 0) shadowedTextTheme = (Normal v, h') →
    wfVal h' v.
Proof.
  assert (themeObject shadowedTextTheme (VRef 0)) as Hth by by_evaluation.
  split; [exact Hth|].
  exact (call_keeps_the_heap_well_formed shadowedTextTheme (VRef 0) Hth).
Defined.



End TableRowMore.

Module NumberInputMore.
Import NumberInput NumberInputFacts.

(** Case analysis on a key of [allowedProps]. *)
Ltac each_allowedProp H :=
  unfold allowedProps in H; rewrite !elem_of_cons, elem_of_nil in H;
  repeat (destruct H as [-> | H]); [..|destruct H].

(** X9.  [renderLabel] is the only prop that must be supplied: it is the
    only entry of [propTypes] marked [isRequired], so a missing value
    (undefined or null) is accepted for every declared prop but
    [renderLabel]. *)
Theorem renderLabel_is_the_only_required_prop k :
  k ∈ allowedProps →
  (∃ v, propTypes !! k = Some v ∧ (required v = true ↔ k = "renderLabel")) ∧
  (accepts k VUndefined ↔ k ≠ "renderLabel") ∧
  (accepts k VNull ↔ k ≠ "renderLabel").
Proof.
  intros Hk. each_allowedProp Hk.
  1: { split; [|split].
       - eexists. split; [vm_compute; reflexivity|]. done.
       - split; [|done]. intros (v & Hv & Hacc).
         vm_compute in Hv. injection Hv as <-. discriminate.
       - split; [|done]. intros (v & Hv & Hacc).
         vm_compute in Hv. injection Hv as <-. discriminate. }
  all: split; [|split];
    [ eexists; split; [vm_compute; reflexivity|]; split; discriminate
    | split; [discriminate|]; intros _;
      eexists; split; [vm_compute; reflexivity|reflexivity]
    | split; [discriminate|]; intros _;
      eexists; split; [vm_compute; reflexivity|reflexivity] ].
Qed.

Lemma renderLabel_is_the_only_required_prop_witness :
  "renderLabel" ∈ allowedProps ∧
  (∃ v, propTypes !! "renderLabel" = Some v ∧
        (required v = true ↔ "renderLabel" = "renderLabel")) ∧
  (accepts "renderLabel" VUndefined ↔ "renderLabel" ≠ "renderLabel") ∧
  (accepts "renderLabel" VNull ↔ "renderLabel" ≠ "renderLabel").
Proof.
  assert ("renderLabel" ∈ allowedProps) as Hk by (unfold allowedProps; in_list).
  split; [exact Hk|].
  exact (renderLabel_is_the_only_required_prop "renderLabel" Hk).
Defined.

(** X10.  The other three enum props are constrained like [size] and
    [inputMode]: [interaction] accepts a value iff it is missing or one of
    'enabled', 'disabled', 'readonly'; [display] iff missing or
    'inline-block' or 'block'; [textAlign] iff missing or 'start' or
    'center'.  For [display] and [textAlign] these are the literals the
    interface declares. *)
Theorem remaining_enum_validators v :
  (accepts "interaction" v ↔
     nullish v = true ∨ v = VStr "enabled" ∨ v = VStr "disabled"
       ∨ v = VStr "readonly") ∧
  (accepts "display" v ↔
     nullish v = true ∨ v = VStr "inline-block" ∨ v = VStr "block") ∧
  (accepts "textAlign" v ↔
     nullish v = true ∨ v = VStr "start" ∨ v = VStr "center") ∧
  (∀ name, name ∈ ["display"; "textAlign"] →
     ∃ u, NumberInputOwnProps_literals !! name = Some u ∧
          propTypes !! name =
            Some (mkValidator (oneOf (literals u)) (negb (isOptional u)))).
Proof.
  assert (propTypes !! "interaction"
          = Some (optional (oneOf ["enabled"; "disabled"; "readonly"]))) as Hi
    by (vm_compute; reflexivity).
  assert (propTypes !! "display"
          = Some (optional (oneOf ["inline-block"; "block"]))) as Hd
    by (vm_compute; reflexivity).
  assert (propTypes !! "textAlign"
          = Some (optional (oneOf ["start"; "center"]))) as Ht
    by (vm_compute; reflexivity).
  split; [|split; [|split]].
  - rewrite (accepts_optional_oneOf _ _ _ Hi). split.
    + intros [|(s & Hs & ->)]; [by left|right].
      rewrite !elem_of_cons, elem_of_nil in Hs.
      destruct Hs as [-> | [-> | [-> | [] ] ] ]; auto.
    + intros [? | [-> | [-> | ->] ] ];
        [by left|right; eexists; (split; [|reflexivity]); in_list..].
  - rewrite (accepts_optional_oneOf _ _ _ Hd). split.
    + intros [|(s & Hs & ->)]; [by left|right].
      rewrite !elem_of_cons, elem_of_nil in Hs.
      destruct Hs as [-> | [-> | [] ] ]; auto.
    + intros [? | [-> | ->] ];
        [by left|right; eexists; (split; [|reflexivity]); in_list..].
  - rewrite (accepts_optional_oneOf _ _ _ Ht). split.
    + intros [|(s & Hs & ->)]; [by left|right].
      rewrite !elem_of_cons, elem_of_nil in Hs.
      destruct Hs as [-> | [-> | [] ] ]; auto.
    + intros [? | [-> | ->] ];
        [by left|right; eexists; (split; [|reflexivity]); in_list..].
  - intros name Hname. rewrite !elem_of_cons, elem_of_nil in Hname.
    destruct Hname as [-> | [-> | [] ] ]; eexists; split;
      solve [vm_compute; reflexivity].
Qed.

(** X11.  No enum prop accepts a value that is not a string: whatever
    boolean, number or object is supplied for [interaction], [size],
    [display], [inputMode] or [textAlign], the validator rejects it. *)
Theorem enum_validators_reject_non_strings k v :
  k ∈ ["interaction"; "size"; "display"; "inputMode"; "textAlign"] →
  nullish v = false →
  (∀ s, v ≠ VStr s) →
  ¬ accepts k v.
Proof.
  intros Hk Hn Hv (w & Hw & Hacc).
  assert (∃ l, propTypes !! k = Some (optional (oneOf l))) as [l Hl].
  { rewrite !elem_of_cons, elem_of_nil in Hk.
    destruct Hk as [-> | [-> | [-> | [-> | [-> | [] ] ] ] ] ];
      [ exists ["enabled"; "disabled"; "readonly"]
      | exists ["medium"; "large"]
      | exists ["inline-block"; "block"]
      | exists ["numeric"; "decimal"; "tel"]
      | exists ["start"; "center"] ];
      vm_compute; reflexivity. }
  rewrite Hl in Hw. injection Hw as <-.
  apply validate_optional_oneOf in Hacc as [Hacc|(s & _ & ->)].
  - congruence.
  - by apply (Hv s).
Qed.

Lemma enum_validators_reject_non_strings_witness :
  "size" ∈ ["interaction"; "size"; "display"; "inputMode"; "textAlign"] ∧
  nullish (VNum 2) = false ∧
  (∀ s, VNum 2 ≠ VStr s) ∧
  ¬ accepts "size" (VNum 2).
Proof.
  assert ("size" ∈ ["interaction"; "size"; "display"; "inputMode"; "textAlign"])
    as Hk by in_list.
  assert (nullish (VNum 2) = false) as Hn by reflexivity.
  assert (∀ s, VNum 2 ≠ VStr s) as Hv by (intros s; discriminate).
  split; [exact Hk|]. split; [exact Hn|]. split; [exact Hv|].
  exact (enum_validators_reject_non_strings "size" (VNum 2) Hk Hn Hv).
Defined.

(** X13.  The props typed as strings ([id], [placeholder], [width])
    accept a value iff it is missing or a string, and the props typed as
    booleans ([isRequired], [showArrows]) iff it is missing or a boolean:
    a number given as [width] is rejected. *)
Theorem primitive_validators k v :
  (k ∈ ["id"; "placeholder"; "width"] →
     (accepts k v ↔ nullish v = true ∨ ∃ s, v = VStr s)) ∧
  (k ∈ ["isRequired"; "showArrows"] →
     (accepts k v ↔ nullish v = true ∨ ∃ b, v = VBool b)).
Proof.
  split; intros Hk; rewrite !elem_of_cons, elem_of_nil in Hk.
  - assert (propTypes !! k = Some (optional PT_string)) as Hl
      by (destruct Hk as [-> | [-> | [-> | [] ] ] ]; vm_compute; reflexivity).
    unfold accepts. rewrite Hl. split.
    + intros (w & Hw & Hacc). injection Hw as <-.
      destruct v; simpl in *; try discriminate; eauto.
    + intros [Hn|(s & ->)]; eexists; (split; [reflexivity|]);
        [by destruct v|done].
  - assert (propTypes !! k = Some (optional PT_bool)) as Hl
      by (destruct Hk as [-> | [-> | [] ] ]; vm_compute; reflexivity).
    unfold accepts. rewrite Hl. split.
    + intros (w & Hw & Hacc). injection Hw as <-.
      destruct v; simpl in *; try discriminate; eauto.
    + intros [Hn|(b & ->)]; eexists; (split; [reflexivity|]);
        [by destruct v|done].
Qed.

Lemma primitive_validators_witness :
  "width" ∈ ["id"; "placeholder"; "width"] ∧
  (accepts "width" (VNum 100) ↔
     nullish (VNum 100) = true ∨ ∃ s, VNum 100 = VStr s) ∧
  "showArrows" ∈ ["isRequired"; "showArrows"] ∧
  (accepts "showArrows" (VBool false) ↔
     nullish (VBool false) = true ∨ ∃ b, VBool false = VBool b).
Proof.
  assert ("width" ∈ ["id"; "placeholder"; "width"]) as H1 by in_list.
  assert ("showArrows" ∈ ["isRequired"; "showArrows"]) as H2 by in_list.
  split; [exact H1|]. split.
  - exact (proj1 (primitive_validators "width" (VNum 100)) H1).
  - split; [exact H2|].
    exact (proj2 (primitive_validators "showArrows" (VBool false)) H2).
Defined.

End NumberInputMore.

Module TabsPanelMore.
Import TabsPanel.




End TabsPanelMore.
